(** * MCP command-line agent: the client's orchestration of tool calls
      (mcp-client/client.py) and the weather server's forecast tool
      (mcp-servers/weather.py), embedded and verified. *)

From Stdlib Require Import ZArith QArith Lia Bool Ascii String DecimalString.
From Stdlib Require Import DecimalN Qabs.
From Stdlib Require Import SpecFloat.
From stdpp Require Import gmap strings list.

(** ** Python built-ins used by the sources *)

Module Py.

(** [sep.join(parts)] *)
Fixpoint join (sep : string) (parts : list string) : string :=
  match parts with
  | [] => ""
  | [p] => p
  | p :: ps => p +:+ sep +:+ join sep ps
  end.

(** [s.endswith(suffix)]: some tail of [s] is [suffix]. *)
Fixpoint endswith (s suffix : string) : bool :=
  if String.eqb s suffix then true
  else match s with
       | EmptyString => false
       | String _ s' => endswith s' suffix
       end.

(** Truth value of a [str]: non-empty. *)
Definition truthy (s : string) : bool := negb (String.eqb s "").

(** An exception object: its class and [str(e)]. *)
Record exn := Exn { exn_class : string; exn_str : string }.

(** [isinstance(e, Exception)], from the name of the class: the classes
    below (the built-in ones and asyncio's [CancelledError]) derive from
    BaseException only; a class of another name is taken to derive from
    Exception, as every other built-in and library exception does. *)
Definition base_only : list string :=
  ["BaseException"; "BaseExceptionGroup"; "KeyboardInterrupt"; "SystemExit";
   "GeneratorExit"; "CancelledError"].

Definition is_exception (e : exn) : bool :=
  negb (existsb (String.eqb (exn_class e)) base_only).

Definition newline : string := String "010"%char "".

End Py.

(** ** mcp-client/client.py *)

Module Client.
Import Py.

(** Values stored in the dictionaries the client builds itself. *)
Inductive value :=
| VStr (s : string)
| VBool (b : bool).

(** What the session reports for one [call_tool]: the object has a
    [content] and an [isError] attribute. *)
Record call_result := CallResult { result_content : string; isError : bool }.

Inductive tool_outcome :=
| Raises (e : exn)
| Returns (r : option call_result).

Section Orchestrator.
(** The input mapping of a tool-use block and its rendering by [str()],
    and the JSON schema of a tool. *)
Context {Args : Type} (str_args : Args -> string) {Schema : Type}.

(** The blocks of [response.content]. *)
Inductive block :=
| TextBlock (text : string)
| ToolUseBlock (id name : string) (input : Args).

(** The [type] tag the loop dispatches on. *)
Definition block_type (b : block) : string :=
  match b with
  | TextBlock _ => "text"
  | ToolUseBlock _ _ _ => "tool_use"
  end.

(** The ["content"] of a message: the query or a text, the blocks of a
    response, or a list of dictionaries. *)
Inductive content :=
| CStr (s : string)
| CBlocks (bs : list block)
| CDicts (ds : list (gmap string value)).

Record message := Message { role : string; msg_content : content }.

Record tool := Tool {
  tool_name : string; tool_description : string; inputSchema : Schema }.

Record tool_param := ToolParam {
  tp_name : string; tp_description : string; tp_input_schema : Schema }.

Record server_params := ServerParams {
  sp_command : string; sp_args : list string }.

(** Calls that leave the process, in the order they are made. *)
Inductive event :=
| EvStdioClient (p : server_params)
| EvInitialize
| EvListTools
| EvCreate (messages : list message) (tools : list tool_param)
| EvCallTool (name : string) (args : Args)
| EvPrintTools (names : list string)
| EvPrintFinal (final_text : list string).

(** The client object together with its collaborators: whether
    [self.session] is set, the catalogue the server lists, the scripted
    results of [messages.create] and of [call_tool], and the calls made
    so far. *)
Record world := World {
  session : bool;
  catalog : list tool;
  completions : list (exn + list block);
  outcomes : list tool_outcome;
  trace : list event }.

Definition log (ev : event) (w : world) : world :=
  World (session w) (catalog w) (completions w) (outcomes w) (trace w ++ [ev]).

Definition set_session (w : world) : world :=
  World true (catalog w) (completions w) (outcomes w) (trace w).

Definition set_completions (cs : list (exn + list block)) (w : world) : world :=
  World (session w) (catalog w) cs (outcomes w) (trace w).

Definition set_outcomes (os : list tool_outcome) (w : world) : world :=
  World (session w) (catalog w) (completions w) os (trace w).

(** Computations: a result or a raised exception, and the world after. *)
Definition M (A : Type) : Type := world -> (exn + A) * world.

Definition ret {A} (a : A) : M A := fun w => (inr a, w).
Definition raise {A} (e : exn) : M A := fun w => (inl e, w).
Definition bind {A B} (m : M A) (k : A -> M B) : M B :=
  fun w => match m w with
           | (inl e, w') => (inl e, w')
           | (inr a, w') => k a w'
           end.
Definition emit (ev : event) : M unit := fun w => (inr tt, log ev w).

(** [try: body except Exception as e: handler(e)]; an exception that is
    no [Exception] goes through. *)
Definition try_except {A} (body : M A) (handler : exn -> M A) : M A :=
  fun w => match body w with
           | (inl e, w') => if is_exception e then handler e w' else (inl e, w')
           | r => r
           end.

#[global] Instance M_ret : MRet M := @ret.
#[global] Instance M_bind : MBind M := fun A B k m => bind m k.

(** [self.session.list_tools()].tools *)
Definition list_tools : M (list tool) := fun w =>
  if session w then (inr (catalog w), log EvListTools w)
  else (inl (Exn "AttributeError"
                 "'NoneType' object has no attribute 'list_tools'"), w).

(** The next entry of a script; a script that has run out raises. *)
Definition stop : exn := Exn "StopIteration" "".

Definition next {A} (default : A) (script : list A) : A * list A :=
  match script with
  | [] => (default, [])
  | x :: xs => (x, xs)
  end.

(** [self.session.call_tool(name, args)] *)
Definition call_tool (name : string) (args : Args) : M (option call_result) :=
  fun w =>
    if session w then
      let w1 := log (EvCallTool name args) w in
      let '(o, os) := next (Raises stop) (outcomes w1) in
      (match o with Raises e => inl e | Returns r => inr r end,
       set_outcomes os w1)
    else (inl (Exn "AttributeError"
                   "'NoneType' object has no attribute 'call_tool'"), w).

(** [self.anthropic.messages.create(messages=..., tools=...)].content; the
    list is handed over as it is at the time of the call. *)
Definition create (messages : list message) (tools : list tool_param)
  : M (list block) :=
  fun w =>
    let w1 := log (EvCreate messages tools) w in
    let '(r, cs) := next (inl stop) (completions w1) in
    (r, set_completions cs w1).

(** *** connect_to_server *)

Definition connect_to_server (server_script_path : string) : M unit :=
  let is_python := endswith server_script_path ".py" in
  let is_js := endswith server_script_path ".js" in
  if negb (is_python || is_js) then
    raise (Exn "ValueError" "Server script must be a .py or .js file")
  else
    let command := if is_python then "python" else "node" in
    let params := ServerParams command [server_script_path] in
    emit (EvStdioClient params) ;;
    (fun w => (inr tt, set_session w)) ;;
    emit EvInitialize ;;
    tools ← list_tools ;
    emit (EvPrintTools (map tool_name tools)).

(** *** process_query *)

(** The local variables the loop reads and writes. The flags
    [tool_call_found], [tool_name], [tool_args] and [tool_use_id] are
    written and never read outside the branch that sets them. *)
Record locals := Locals {
  messages : list message;
  response : list block;
  final_text : list string }.

Definition tool_result_dict (tool_use_id tool_result : string)
  : gmap string value :=
  <["type" := VStr "tool_result"]>
    (<["tool_use_id" := VStr tool_use_id]>
       (<["content" := VStr tool_result]> ∅)).

(** The body of the [tool_use] branch, up to its [break]. *)
Definition tool_use_branch (available_tools : list tool_param)
    (id name : string) (input : Args) (l : locals) : M locals :=
  let final_text1 :=
    final_text l ++ ["[Calling tool " +:+ name +:+ " with args "
                       +:+ str_args input +:+ "]"] in
  '(tool_result, final_text2) ←
    try_except
      (result ← call_tool name input ;
       ret (match result with
            | Some r => if truthy (result_content r)
                        then result_content r else ""
            | None => ""
            end, final_text1))
      (fun e =>
         let tool_result :=
           "Error calling tool " +:+ name +:+ ": " +:+ exn_str e in
         ret (tool_result, final_text1 ++ [tool_result])) ;
  let messages1 := messages l ++ [Message "assistant" (CBlocks (response l))] in
  let messages2 :=
    messages1 ++ [Message "user" (CDicts [tool_result_dict id tool_result])] in
  response' ← create messages2 available_tools ;
  ret (Locals messages2 response' final_text2).

(** [for content in response.content: ...]; the [tool_use] branch ends
    in [break]. *)
Fixpoint for_content (available_tools : list tool_param)
    (bs : list block) (l : locals) : M locals :=
  match bs with
  | [] => ret l
  | TextBlock text :: bs' =>
      for_content available_tools bs'
        (Locals (messages l) (response l) (final_text l ++ [text]))
  | ToolUseBlock id name input :: _ =>
      tool_use_branch available_tools id name input l
  end.

(** The text stored in the last assistant message:
    [response.content[0].text] when there is a first block and it has a
    [text] attribute, else the empty string. *)
Definition first_text (bs : list block) : string :=
  match bs with
  | TextBlock text :: _ => text
  | _ => ""
  end.

(** [[{"name": ..., "description": ..., "input_schema": ...} for tool in
    response.tools]] *)
Definition tool_params (tools : list tool) : list tool_param :=
  map (fun t => ToolParam (tool_name t) (tool_description t) (inputSchema t))
      tools.

(** The body of [process_query] up to its [return], giving the locals
    at that point. The body of [while True] ends in an unconditional
    [break], so it runs once. *)
Definition process_query_locals (query : string) : M locals :=
  let messages0 := [Message "user" (CStr query)] in
  tools ← list_tools ;
  let available_tools := tool_params tools in
  response0 ← create messages0 available_tools ;
  l ← for_content available_tools response0 (Locals messages0 response0 []) ;
  let l' :=
    Locals (messages l ++ [Message "assistant" (CStr (first_text (response l)))])
           (response l) (final_text l) in
  emit (EvPrintFinal (final_text l')) ;;
  ret l'.

Definition process_query (query : string) : M string :=
  l ← process_query_locals query ;
  ret (join newline (final_text l)).

(** *** What a run leaves behind *)

(** The texts of the text blocks, in order. *)
Fixpoint texts (bs : list block) : list string :=
  match bs with
  | [] => []
  | TextBlock text :: bs' => text :: texts bs'
  | ToolUseBlock _ _ _ :: bs' => texts bs'
  end.

(** The tool-use blocks, in order: id, name and input. *)
Fixpoint tool_uses (bs : list block) : list (string * (string * Args)) :=
  match bs with
  | [] => []
  | TextBlock _ :: bs' => tool_uses bs'
  | ToolUseBlock id name input :: bs' => (id, (name, input)) :: tool_uses bs'
  end.

(** The ids of the tool-use blocks in a conversation. *)
Definition tool_use_ids (ms : list message) : list string :=
  flat_map (fun m => match msg_content m with
                     | CBlocks bs => map fst (tool_uses bs)
                     | _ => []
                     end) ms.

Definition dict_tool_result_id (d : gmap string value) : list string :=
  match d !! "type", d !! "tool_use_id" with
  | Some (VStr ty), Some (VStr id) =>
      if String.eqb ty "tool_result" then [id] else []
  | _, _ => []
  end.

(** The [tool_use_id]s of the tool-result blocks in a conversation. *)
Definition tool_result_ids (ms : list message) : list string :=
  flat_map (fun m => match msg_content m with
                     | CDicts ds => flat_map dict_tool_result_id ds
                     | _ => []
                     end) ms.

(** The tool calls of a trace, and the conversations handed to
    [messages.create], both in order. *)
Definition calls (tr : list event) : list (string * Args) :=
  flat_map (fun ev => match ev with
                      | EvCallTool name args => [(name, args)]
                      | _ => []
                      end) tr.

Definition creates (tr : list event) : list (list message) :=
  flat_map (fun ev => match ev with
                      | EvCreate ms _ => [ms]
                      | _ => []
                      end) tr.

(** The line that announces a tool call, and the string that stands
    for a failed one. *)
Definition calling_line (name : string) (input : Args) : string :=
  "[Calling tool " +:+ name +:+ " with args " +:+ str_args input +:+ "]".

Definition error_line (name : string) (e : exn) : string :=
  "Error calling tool " +:+ name +:+ ": " +:+ exn_str e.

(** Whether the [try] around the call lets the run go on: it does unless
    the call raises an exception that is no [Exception]. *)
Definition caught (o : tool_outcome) : bool :=
  match o with
  | Raises e => is_exception e
  | Returns _ => true
  end.

(** What the tool-use branch stores as the tool result, and what it adds to
    [final_text], for each outcome of the call. *)
Definition stored_result (name : string) (o : tool_outcome) : string :=
  match o with
  | Raises e => error_line name e
  | Returns (Some r) => if truthy (result_content r) then result_content r else ""
  | Returns None => ""
  end.

Definition reported (name : string) (input : Args) (o : tool_outcome)
  : list string :=
  calling_line name input
    :: match o with Raises e => [error_line name e] | Returns _ => [] end.

(** The conversation a run ends with, or the exception that ended it. *)
Definition transcript (r : exn + locals) : exn + list message :=
  match r with
  | inl e => inl e
  | inr l => inr (messages l)
  end.

(** Two worlds that hold the same scripts. *)
Definition same_script (w1 w2 : world) : Prop :=
  session w1 = session w2 /\ completions w1 = completions w2
  /\ outcomes w1 = outcomes w2.

(** Two outcomes of a computation that cannot be told apart: the same
    result or exception, and worlds that hold the same scripts. *)
Definition agree {A} (r1 r2 : (exn + A) * world) : Prop :=
  r1.1 = r2.1 /\ same_script r1.2 r2.2.

(** A completion result without content is read as one empty text
    block. *)
Definition degrade (r : exn + list block) : exn + list block :=
  match r with
  | inr [] => inr [TextBlock ""]
  | _ => r
  end.

End Orchestrator.

(** The four kinds of message a conversation is made of. *)
Abbreviation user_says query := (Message "user" (CStr query)).
Abbreviation assistant_says text := (Message "assistant" (CStr text)).
Abbreviation assistant_blocks bs := (Message "assistant" (CBlocks bs)).
Abbreviation user_result id text :=
  (Message "user" (CDicts [tool_result_dict id text])).

(** An input mapping kept as keys and value literals, and its [str()], for
    mappings whose keys [repr] writes between single quotes as they are
    (no quote, backslash or unprintable character in them), as the keys
    of the scenarios below. *)
Definition str_mapping (args : list (string * string)) : string :=
  "{" +:+ join ", " (map (fun kv => "'" +:+ fst kv +:+ "': " +:+ snd kv) args)
      +:+ "}".

(** The single-tool scenario: one [get_forecast] request, answered, then
    a final text. *)
Definition boston_args : list (string * string) :=
  [("lat", "42.36"); ("lon", "-71.06")].

Definition boston_world (outcome : tool_outcome)
  : @world (list (string * string)) unit :=
  World true [Tool "get_forecast" "Get weather forecast for a location." tt]
    [inr [ToolUseBlock "t1" "get_forecast" boston_args];
     inr [TextBlock "It will be sunny, 70F in Boston."]]
    [outcome] [].

(** A first completion made of two text blocks. *)
Definition two_texts_world : @world (list (string * string)) unit :=
  World true [] [inr [TextBlock "Hello"; TextBlock "world"]] [] [].

(** A first completion that asks for two tools at once. *)
Definition two_tools_world : @world (list (string * string)) unit :=
  World true [Tool "get_forecast" "" tt; Tool "get_alerts" "" tt]
    [inr [ToolUseBlock "t1" "get_forecast" boston_args;
          ToolUseBlock "t2" "get_alerts" [("state", "'MA'")]];
     inr [TextBlock "Done."]]
    [Raises (Exn "Exception" "timeout");
     Returns (Some (CallResult "No active weather alerts found for MA." false))]
    [].

(** The failing and the successful outcome of the scenarios. *)
Definition timeout : exn := Exn "Exception" "timeout".

Definition sunny : tool_outcome := Returns (Some (CallResult "Sunny, 70F" false)).

(** A result that reports a failure without raising, and the exception of
    a cancelled task, which is no [Exception]. *)
Definition upstream : call_result := CallResult "upstream timeout" true.

Definition cancelled : exn := Exn "CancelledError" "".

(** A first completion without content. *)
Definition empty_first_world : @world (list (string * string)) unit :=
  World true [] [inr []] [] [].

(** The single-tool scenario with a second completion without content. *)
Definition empty_second_world : @world (list (string * string)) unit :=
  World true [] [inr [ToolUseBlock "t1" "get_forecast" boston_args]; inr []]
    [sunny] [].

(** The single-tool scenario against another server and after earlier
    calls. *)
Definition replayed_world : @world (list (string * string)) unit :=
  World true [] (completions (boston_world sunny)) [sunny]
    [EvInitialize; EvListTools].

End Client.

(** ** mcp-servers/weather.py *)

Module Weather.
Local Open Scope Z_scope.

Definition NWS_API_BASE : string := "https://api.weather.gov".

(** *** Floats: binary64 values and the two operations the tool uses *)

(** The number a float stands for; [None] for NaN and the infinities. *)
Definition float_value (x : spec_float) : option Q :=
  match x with
  | S754_zero _ => Some 0%Q
  | S754_finite s m (Zneg p) => Some (Qmake (cond_Zopp s (Zpos m)) (Pos.pow 2 p))
  | S754_finite s m e => Some (inject_Z (cond_Zopp s (Zpos m) * 2 ^ e))
  | _ => None
  end.

(** [n <= x] for an [int] and a [float]: exact; false on NaN. *)
Definition int_le_float (n : Z) (x : spec_float) : bool :=
  match x with
  | S754_nan => false
  | S754_infinity s => negb s
  | _ => match float_value x with
         | Some v => Qle_bool (inject_Z n) v
         | None => false
         end
  end.

(** [x <= n] *)
Definition float_le_int (x : spec_float) (n : Z) : bool :=
  match x with
  | S754_nan => false
  | S754_infinity s => s
  | _ => match float_value x with
         | Some v => Qle_bool v (inject_Z n)
         | None => false
         end
  end.

Definition digit (d : Z) : ascii := ascii_of_N (48 + Z.to_N d).

(** [str(n)] for [n >= 0] *)
Definition str_int (n : Z) : string :=
  DecimalString.NilZero.string_of_uint (N.to_uint (Z.to_N n)).

(** The last [p] decimal digits of [n], zero-padded, before [acc]. *)
Fixpoint frac_digits (p : nat) (n : Z) (acc : string) : string :=
  match p with
  | O => acc
  | S p' => frac_digits p' (n / 10) (String (digit (n mod 10)) acc)
  end.

(** The integer nearest to [num / den], ties to even ([num >= 0],
    [den > 0]). *)
Definition round_half_even (num den : Z) : Z :=
  let q := num / den in
  match 2 * (num mod den) ?= den with
  | Lt => q
  | Gt => q + 1
  | Eq => if Z.even q then q else q + 1
  end.

(** [|x| * 10^p] rounded to an integer, for [|x| = m * 2^e]. *)
Definition scaled (p : nat) (m : positive) (e : Z) : Z :=
  if 0 <=? e then Zpos m * 2 ^ e * 10 ^ Z.of_nat p
  else round_half_even (Zpos m * 10 ^ Z.of_nat p) (2 ^ (- e)).

Definition fixed (p : nat) (s : bool) (n : Z) : string :=
  (if s then "-" else "") +:+ str_int (n / 10 ^ Z.of_nat p)
    +:+ match p with
        | O => ""
        | _ => "." +:+ frac_digits p (n mod 10 ^ Z.of_nat p) ""
        end.

(** [f"{x:.pf}"] *)
Definition format_f (p : nat) (x : spec_float) : string :=
  match x with
  | S754_nan => "nan"
  | S754_infinity s => if s then "-inf" else "inf"
  | S754_zero s => fixed p s 0
  | S754_finite s m e => fixed p s (scaled p m e)
  end.

(** *** get_forecast *)

Section Forecast.
(** A decoded response body. *)
Context {Json : Type}.

(** A tool's run: it returns a string, or asks [make_nws_request] for a
    URL and goes on with what comes back ([None] on any failure). *)
Inductive run :=
| Return (s : string)
| Request (url : string) (k : option Json -> run).

(** What [get_forecast] does with the grid-point data once it has
    them: the second request and the formatting of the periods. *)
Variable forecast_from_points : Json -> string -> string -> run.

Definition get_forecast (latitude longitude : spec_float) : run :=
  if negb (int_le_float (-90) latitude && float_le_int latitude 90
           && (int_le_float (-180) longitude && float_le_int longitude 180))
  then Return "Error: Invalid latitude or longitude values provided."
  else
    let lat_str := format_f 4 latitude in
    let lon_str := format_f 4 longitude in
    let points_url :=
      NWS_API_BASE +:+ "/points/" +:+ lat_str +:+ "," +:+ lon_str in
    Request points_url (fun points_data =>
      match points_data with
      | None =>
          Return ("Error: Unable to get forecast grid point for location ("
                    +:+ lat_str +:+ ", " +:+ lon_str
                    +:+ "). The location might be outside the US or the API might be down.")
      | Some data => forecast_from_points data lat_str lon_str
      end).

(** The requests of a run against a network [net], in order. *)
Fixpoint requests (net : string -> option Json) (r : run) : list string :=
  match r with
  | Return _ => []
  | Request url k => url :: requests net (k (net url))
  end.

End Forecast.

(** *** Reading a formatted number back *)

Definition is_digit (c : ascii) : bool :=
  (48 <=? nat_of_ascii c)%nat && (nat_of_ascii c <=? 57)%nat.

Fixpoint all_digits (s : string) : bool :=
  match s with
  | EmptyString => true
  | String c s' => is_digit c && all_digits s'
  end.

(** The part of [s] after its first point, if it has one. *)
Fixpoint after_point (s : string) : option string :=
  match s with
  | EmptyString => None
  | String c s' => if Ascii.eqb c "."%char then Some s' else after_point s'
  end.

(** [s] is a number written with exactly [p] decimal places. *)
Definition has_decimals (p : nat) (s : string) : bool :=
  match after_point s with
  | Some d => (String.length d =? p)%nat && all_digits d
  | None => false
  end.

(** [lo <= x <= hi] as numbers. *)
Definition within (lo hi : Z) (x : spec_float) : Prop :=
  match float_value x with
  | Some v => (inject_Z lo <= v)%Q /\ (v <= inject_Z hi)%Q
  | None => False
  end.

(** Some binary64 values. *)
Definition f_42_36 : spec_float := S754_finite false 5961640006731694 (-47).
Definition f_m71_06 : spec_float := S754_finite true 5000402961264804 (-46).
Definition f_91 : spec_float := S754_finite false 6403555720167424 (-46).
Definition f_90 : spec_float := S754_finite false 6333186975989760 (-46).
Definition f_0_00015 : spec_float := S754_finite false 5534023222112865 (-65).
Definition f_0_00005 : spec_float := S754_finite false 7378697629483821 (-67).
Definition f_0_125 : spec_float := S754_finite false 4503599627370496 (-55).

End Weather.

(** ** mcp-client/client.py: the interactive shell around the client *)

Module Shell.
Import Py Client.

(** [str.lower] and [str.strip] on texts of ASCII characters. *)
Definition lower_char (c : ascii) : ascii :=
  let n := nat_of_ascii c in
  if (65 <=? n)%nat && (n <=? 90)%nat then ascii_of_nat (n + 32) else c.

Fixpoint ascii_lower (s : string) : string :=
  match s with
  | EmptyString => EmptyString
  | String c s' => String (lower_char c) (ascii_lower s')
  end.

Definition is_space (c : ascii) : bool :=
  let n := nat_of_ascii c in
  ((9 <=? n)%nat && (n <=? 13)%nat) || ((28 <=? n)%nat && (n <=? 32)%nat).

Fixpoint lstrip (s : string) : string :=
  match s with
  | EmptyString => EmptyString
  | String c s' => if is_space c then lstrip s' else s
  end.

Definition ascii_strip (s : string) : string :=
  String.rev (lstrip (String.rev (lstrip s))).

(** What [chat_loop] and [main] themselves write to standard output: the
    argument of a [print] and the prompt of an [input]. The prints inside
    [connect_to_server] and [process_query] are events of the trace. *)
Inductive output :=
| Printed (s : string)
| Prompted (s : string).

(** The prompt of the loop and the two lines it starts with. *)
Definition prompt : output := Prompted (newline +:+ "Query: ").

Definition banner : list output :=
  [Printed (newline +:+ "MCP Client Started!");
   Printed "Type your queries or 'quit' to exit."].

Section Loop.
Context {Args : Type} (str_args : Args -> string) {Schema : Type}.

(** [str.strip] and [str.lower], as Python defines them. *)
Context (strip lower : string -> string).

(** The process: the client with its collaborators, the lines still to be
    read from standard input, what the shell wrote to standard output, and
    how often the exit stack was closed. *)
Record shell := MkShell {
  sh_world : @world Args Schema;
  stdin : list string;
  stdout : list output;
  closed : nat }.

Definition with_world (w : @world Args Schema) (sh : shell) : shell :=
  MkShell w (stdin sh) (stdout sh) (closed sh).

Definition print (s : string) (sh : shell) : shell :=
  MkShell (sh_world sh) (stdin sh) (stdout sh ++ [Printed s]) (closed sh).

(** [input(prompt)]: the next line, or EOFError at the end of the input. *)
Definition input (prompt : string) (sh : shell) : (exn + string) * shell :=
  let out := stdout sh ++ [Prompted prompt] in
  match stdin sh with
  | [] => (inl (Exn "EOFError" "EOF when reading a line"),
           MkShell (sh_world sh) [] out (closed sh))
  | line :: rest => (inr line, MkShell (sh_world sh) rest out (closed sh))
  end.

(** The [except Exception] clause around a pass of the loop: it prints a
    blank line and the exception's text after "Error: "; an exception that
    is no [Exception] goes through. *)
Definition except_print (e : exn) (sh : shell) : (exn + bool) * shell :=
  if is_exception e
  then (inr false, print (newline +:+ "Error: " +:+ exn_str e) sh)
  else (inl e, sh).

(** One pass through the body of the [while True] of [chat_loop]:
    [inr true] when it leaves by [break], [inr false] when the loop goes
    on, [inl e] when [e] leaves the [try]. *)
Definition chat_iteration (sh : shell) : (exn + bool) * shell :=
  match input (newline +:+ "Query: ") sh with
  | (inl e, sh1) => except_print e sh1
  | (inr line, sh1) =>
      let query := strip line in
      if String.eqb (lower query) "quit" then (inr true, sh1)
      else
        match process_query str_args query (sh_world sh1) with
        | (inr response, w') =>
            (inr false, print (newline +:+ response) (with_world w' sh1))
        | (inl e, w') => except_print e (with_world w' sh1)
        end
  end.

(** The loop, for at most [fuel] passes: [None] when it is still running
    after them, otherwise how it was left. *)
Fixpoint chat_iterations (fuel : nat) (sh : shell)
  : option ((exn + unit) * shell) :=
  match fuel with
  | O => None
  | S fuel' =>
      match chat_iteration sh with
      | (inl e, sh') => Some (inl e, sh')
      | (inr true, sh') => Some (inr tt, sh')
      | (inr false, sh') => chat_iterations fuel' sh'
      end
  end.

Definition chat_loop (fuel : nat) (sh : shell)
  : option ((exn + unit) * shell) :=
  chat_iterations fuel
    (print "Type your queries or 'quit' to exit."
       (print (newline +:+ "MCP Client Started!") sh)).

(** [cleanup]: [self.exit_stack.aclose()] *)
Definition cleanup (sh : shell) : shell :=
  MkShell (sh_world sh) (stdin sh) (stdout sh) (S (closed sh)).

(** [MCPClient()]: a client without a session. *)
Definition new_client (sh : shell) : shell :=
  with_world (World false (catalog (sh_world sh)) (completions (sh_world sh))
                    (outcomes (sh_world sh)) (trace (sh_world sh))) sh.

(** [main] with [sys.argv = argv]; the [finally] clause runs [cleanup]
    whether [connect_to_server] raised, the loop was left by [break] or an
    exception left the loop, and an exception goes on after it. *)
Definition main (fuel : nat) (argv : list string) (sh : shell)
  : option ((exn + unit) * shell) :=
  if (length argv <? 2)%nat then
    Some (inr tt, print "Usage: python client.py <path_to_server_script>" sh)
  else
    let sh0 := new_client sh in
    match connect_to_server (nth 1 argv "") (sh_world sh0) with
    | (inl e, w') => Some (inl e, cleanup (with_world w' sh0))
    | (inr _, w') =>
        match chat_loop fuel (with_world w' sh0) with
        | None => None
        | Some (r, sh') => Some (r, cleanup sh')
        end
    end.

(** The queries of the lines read before the first that asks to quit, and
    the lines left after it. *)
Fixpoint queries_until_quit (lines : list string) : list string :=
  match lines with
  | [] => []
  | line :: rest =>
      if String.eqb (lower (strip line)) "quit" then []
      else strip line :: queries_until_quit rest
  end.

Fixpoint lines_after_quit (lines : list string) : option (list string) :=
  match lines with
  | [] => None
  | line :: rest =>
      if String.eqb (lower (strip line)) "quit" then Some rest
      else lines_after_quit rest
  end.

(** Whether a run ended with an exception that [except Exception] lets
    through, and whether none of the queries, run one after the other,
    ends so. *)
Definition escapes (r : exn + string) : bool :=
  match r with
  | inl e => negb (is_exception e)
  | inr _ => false
  end.

Fixpoint all_caught (qs : list string) (w : @world Args Schema) : bool :=
  match qs with
  | [] => true
  | q :: qs' =>
      negb (escapes (process_query str_args q w).1)
      && all_caught qs' (process_query str_args q w).2
  end.

(** The client after it has processed the queries one after the other,
    whatever their results. *)
Definition after_queries (qs : list string) (w : @world Args Schema)
  : @world Args Schema :=
  fold_left (fun w q => (process_query str_args q w).2) qs w.

(** What the loop writes for one query. *)
Definition query_output (q : string) (w : @world Args Schema) : list output :=
  [Prompted (newline +:+ "Query: ");
   Printed (match (process_query str_args q w).1 with
            | inr response => newline +:+ response
            | inl e => newline +:+ "Error: " +:+ exn_str e
            end)].

Fixpoint queries_output (qs : list string) (w : @world Args Schema)
  : list output :=
  match qs with
  | [] => []
  | q :: qs' =>
      query_output q w ++ queries_output qs' (process_query str_args q w).2
  end.

End Loop.

(** How often the tools were listed in a trace, and the tool parameters
    handed to each inference call. *)
Definition listings {Args Schema} (tr : list (@event Args Schema)) : nat :=
  length (flat_map (fun ev => match ev with
                                | EvListTools => [tt]
                                | _ => []
                                end) tr).

Definition create_tools {Args Schema} (tr : list (@event Args Schema))
  : list (list (@tool_param Schema)) :=
  flat_map (fun ev => match ev with
                      | EvCreate _ tools => [tools]
                      | _ => []
                      end) tr.

(** A shell in front of the single-tool scenario. *)
Definition boston_shell (lines : list string)
  : @shell (list (string * string)) unit :=
  MkShell (boston_world sunny) lines [] 0.

(** Worlds for the shell: a client without a session, an inference
    endpoint that fails on its first call, and the two-text scenario before
    any connection. *)
Definition no_session_world : @world (list (string * string)) unit :=
  World false [] [] [] [].

Definition overloaded : exn := Exn "APIStatusError" "overloaded".

Definition failing_world : @world (list (string * string)) unit :=
  World true [] [inl overloaded; inr [TextBlock "Hello"]] [] [].

Definition two_texts_offline : @world (list (string * string)) unit :=
  World false [] [inr [TextBlock "Hello"; TextBlock "world"]] [] [].

(** The single-tool scenario with an inference endpoint that fails on its
    second call. *)
Definition failing_second_world (outcome : tool_outcome)
  : @world (list (string * string)) unit :=
  World true [] [inr [ToolUseBlock "t1" "get_forecast" boston_args];
                 inl overloaded]
    [outcome] [].

End Shell.

(** ** mcp-servers/weather.py: the requests and the two tools in full *)

Module Nws.
Import Py Weather.
Local Open Scope Z_scope.

(** A decoded JSON value, as [response.json()] gives it. *)
#[warnings="-register-all"]
Inductive json :=
| JNull
| JBool (b : bool)
| JInt (n : Z)
| JFloat (x : spec_float)
| JStr (s : string)
| JList (l : list json)
| JDict (d : gmap string json).

(** The two exceptions the dynamic operations below can raise. *)
Inductive error := AttributeError | TypeError.

#[global] Instance res_ret : MRet (sum error) := fun A x => inr x.
#[global] Instance res_bind : MBind (sum error) :=
  fun A B f m => match m with inl e => inl e | inr a => f a end.

(** Truth value of a decoded value. *)
Definition truthy_json (v : json) : bool :=
  match v with
  | JNull => false
  | JBool b => b
  | JInt n => negb (n =? 0)
  | JFloat (S754_zero _) => false
  | JFloat _ => true
  | JStr s => truthy s
  | JList l => match l with [] => false | _ => true end
  | JDict d => negb (size d =? 0)%nat
  end.

(** [needle in hay] for two strings. *)
Fixpoint contains (needle hay : string) : bool :=
  String.prefix needle hay
  || match hay with
     | EmptyString => false
     | String _ hay' => contains needle hay'
     end.

(** [v.get(key, dflt)]: only a dict has the method. *)
Definition get (v : json) (key : string) (dflt : json) : error + json :=
  match v with
  | JDict d => inr (default dflt (d !! key))
  | _ => inl AttributeError
  end.

(** [needle in v] for a string [needle]: substring of a string, element of
    a list, key of a dict; the other values are no containers. *)
Definition str_in (needle : string) (v : json) : error + bool :=
  match v with
  | JStr s => inr (contains needle s)
  | JList l =>
      inr (existsb (fun x => match x with
                             | JStr s => String.eqb s needle
                             | _ => false
                             end) l)
  | JDict d => inr (match d !! needle with Some _ => true | None => false end)
  | _ => inl TypeError
  end.

(** [v == n] for an [int] [n] other than 0 and 1. *)
Definition eq_int (v : json) (n : Z) : bool :=
  match v with
  | JInt k => k =? n
  | JFloat x => match float_value x with
                | Some q => Qeq_bool q (inject_Z n)
                | None => false
                end
  | _ => false
  end.

(** [v != s] for a string [s]. *)
Definition neq_str (v : json) (s : string) : bool :=
  match v with
  | JStr s' => negb (String.eqb s' s)
  | _ => true
  end.

(** *** make_nws_request *)

(** What [client.get] brings back: whether [raise_for_status] raises, the
    content-type header if there is one, and the decoded body unless
    decoding raises. *)
Record response := Response {
  status_raises : bool;
  content_type : option string;
  body : option json }.

Inductive fetch :=
| GetRaises
| GetReturns (r : response).

(** The value of [response.json()], [None] when the decoding raised: a
    body that is the JSON [null] decodes to Python's [None] as well. *)
Definition decoded (body : option json) : option json :=
  match body with
  | Some JNull => None
  | _ => body
  end.

(** The result of [make_nws_request] for each outcome of the GET; an
    [Exception] of the GET, of [raise_for_status] or of the decoding is
    caught and gives [None]. The result is [Some data] only for a value
    [data] other than [JNull]. *)
Definition make_nws_request (f : fetch) : option json :=
  match f with
  | GetRaises => None
  | GetReturns r =>
      if status_raises r then None
      else
        let content_type := default "" (content_type r) in
        if negb (contains "application/geo+json" content_type)
           && negb (contains "application/ld+json" content_type)
        then None
        else decoded (body r)
  end.

(** *** The tools *)

(** The run of a tool: it returns a string, raises, or calls
    [make_nws_request] with some value and goes on with the result. For
    the tool the result is a Python value: [None] and [Some JNull] both
    stand for Python's [None], and the tests [data is None] answer alike
    on them. *)
Inductive tool_run :=
| Done (s : string)
| Raised (e : error)
| Ask (url : json) (k : option json -> tool_run).

(** Going on after an operation that may raise, outside any [try]. *)
Definition or_raise {A} (r : error + A) (k : A -> tool_run) : tool_run :=
  match r with
  | inl e => Raised e
  | inr a => k a
  end.

(** The values handed to [make_nws_request] in a run against a network, in
    order, and how the run ends. *)
Fixpoint asked (net : json -> option json) (r : tool_run) : list json :=
  match r with
  | Done _ | Raised _ => []
  | Ask url k => url :: asked net (k (net url))
  end.

Fixpoint outcome (net : json -> option json) (r : tool_run) : error + string :=
  match r with
  | Done s => inr s
  | Raised e => inl e
  | Ask url k => outcome net (k (net url))
  end.

(** The degree sign as the source has it: two characters. *)
Definition degree : string := String "194"%char (String "176"%char "").

Section Tools.
(** [str.strip], [str.isalpha] and [str.upper], and [str()] of a decoded
    value that is not a string. *)
Context (strip : string -> string) (isalpha : string -> bool)
  (upper : string -> string) (str_other : json -> string).

(** [str(v)], as an f-string field renders [v]. *)
Definition py_str (v : json) : string :=
  match v with
  | JStr s => s
  | _ => str_other v
  end.

(** [v.strip()]: only a string has the method. *)
Definition strip_of (v : json) : error + string :=
  match v with
  | JStr s => inr (strip s)
  | _ => inl AttributeError
  end.

(** The text of an alert, from the rendered fields. *)
Definition alert_text (event area severity certainty urgency headline
    description instruction effective expires : string) : string :=
  newline +:+ "Event: " +:+ event +:+ newline
    +:+ "Area: " +:+ area +:+ newline
    +:+ "Severity: " +:+ severity +:+ newline
    +:+ "Certainty: " +:+ certainty +:+ newline
    +:+ "Urgency: " +:+ urgency +:+ newline
    +:+ "Headline: " +:+ headline +:+ newline
    +:+ "Description: " +:+ description +:+ newline
    +:+ "Instructions: " +:+ instruction +:+ newline
    +:+ "Effective: " +:+ effective +:+ newline
    +:+ "Expires: " +:+ expires +:+ newline.

Definition format_alert (feature : json) : error + string :=
  props ← get feature "properties" (JDict ∅);
  d ← get props "description" (JStr "No description available");
  description ← strip_of d;
  i ← get props "instruction" (JStr "No specific instructions provided");
  instruction ← (if truthy_json i then strip_of i
                 else inr "No specific instructions provided");
  event ← get props "event" (JStr "Unknown");
  area ← get props "areaDesc" (JStr "Unknown");
  severity ← get props "severity" (JStr "Unknown");
  certainty ← get props "certainty" (JStr "Unknown");
  urgency ← get props "urgency" (JStr "Unknown");
  headline ← get props "headline" (JStr "N/A");
  effective ← get props "effective" (JStr "N/A");
  expires ← get props "expires" (JStr "N/A");
  mret (alert_text (py_str event) (py_str area) (py_str severity)
          (py_str certainty) (py_str urgency) (py_str headline)
          (if truthy description then description else "N/A")
          (if truthy instruction then instruction else "N/A")
          (py_str effective) (py_str expires)).

Definition separator : string := newline +:+ "---" +:+ newline.

(** [get_alerts]; the argument is a string, so the [isinstance] test of
    the guard holds. *)
Definition get_alerts (state : string) : tool_run :=
  if negb (String.length state =? 2)%nat || negb (isalpha state) then
    Done "Error: Please provide a valid two-letter US state code (e.g., CA, NY)."
  else
    let state_upper := upper state in
    let url := NWS_API_BASE +:+ "/alerts/active/area/" +:+ state_upper in
    Ask (JStr url) (fun data =>
      match data with
      | None | Some JNull =>
          Done ("Error: Unable to fetch alerts for '" +:+ state_upper
                  +:+ "' from the NWS API. Check server logs for details.")
      | Some (JDict d) =>
          match d !! "features" with
          | Some (JList features) =>
              match features with
              | [] => Done ("No active weather alerts found for "
                              +:+ state_upper +:+ ".")
              | _ =>
                  match mapM format_alert features with
                  | inr alerts =>
                      Done ("Active Alerts for " +:+ state_upper +:+ ":"
                              +:+ separator +:+ join separator alerts)
                  | inl _ =>
                      Done ("Error: Could not format the alert data received for "
                              +:+ state_upper +:+ ".")
                  end
              end
          | _ => Done ("Error: Received unexpected data format when fetching alerts for "
                         +:+ state_upper +:+ ".")
          end
      | Some _ =>
          Done ("Error: Received unexpected data format when fetching alerts for "
                  +:+ state_upper +:+ ".")
      end).

(** The text of one forecast period. *)
Definition format_period (period : json) : error + string :=
  name ← get period "name" (JStr "Unknown Period");
  temp ← get period "temperature" (JStr "N/A");
  temp_unit ← get period "temperatureUnit" (JStr "");
  wind_speed ← get period "windSpeed" (JStr "N/A");
  wind_dir ← get period "windDirection" (JStr "");
  short_fcst ← get period "shortForecast" (JStr "N/A");
  d ← get period "detailedForecast" (JStr "N/A");
  detailed_fcst ← strip_of d;
  mret (newline +:+ py_str name +:+ ":" +:+ newline
          +:+ "  Temperature: " +:+ py_str temp +:+ degree +:+ py_str temp_unit
          +:+ newline
          +:+ "  Wind: " +:+ py_str wind_speed +:+ " " +:+ py_str wind_dir
          +:+ newline
          +:+ "  Forecast: " +:+ py_str short_fcst +:+ newline
          +:+ "  Details: " +:+ detailed_fcst).

(** The last part of [get_forecast]: from the periods to the text; the
    loop over the first seven periods is inside the [try]. *)
Definition forecast_text (location_str : string) (periods : list json)
  : string :=
  match mapM format_period (take 7 periods) with
  | inr forecasts =>
      "Weather forecast " +:+ location_str +:+ ":" +:+ separator
        +:+ join separator forecasts
  | inl _ =>
      "Error: Could not format the forecast data received for "
        +:+ location_str +:+ "."
  end.

Definition grid_text (grid_id grid_x grid_y : json) : string :=
  "(Grid: " +:+ py_str grid_id +:+ "/" +:+ py_str grid_x +:+ ","
    +:+ py_str grid_y +:+ ")".

(** [get_forecast] once the answer to the second request is there. *)
Definition after_forecast (properties forecast_url grid_id grid_x grid_y : json)
    (lat_str lon_str : string) (forecast_data : option json) : tool_run :=
  match forecast_data with
  | None | Some JNull =>
      Done ("Error: Unable to fetch the detailed forecast from "
              +:+ py_str forecast_url +:+ " "
              +:+ grid_text grid_id grid_x grid_y +:+ ".")
  | Some (JDict fd) =>
      match fd !! "properties" with
      | None =>
          Done ("Error: Received unexpected data format for the detailed forecast "
                  +:+ grid_text grid_id grid_x grid_y +:+ ".")
      | Some fprops =>
          or_raise (get fprops "periods" JNull) (fun periods =>
          match periods with
          | JList ps =>
              match ps with
              | [] =>
                  Done ("No forecast periods available for location ("
                          +:+ lat_str +:+ ", " +:+ lon_str +:+ ") at this time.")
              | _ =>
                  or_raise (get properties "relativeLocation" (JDict ∅))
                    (fun relative =>
                  or_raise (get relative "properties" (JDict ∅))
                    (fun location_info =>
                  or_raise (get location_info "city" (JStr "Unknown City"))
                    (fun city =>
                  or_raise (get location_info "state" (JStr "Unknown State"))
                    (fun state =>
                  let location_str :=
                    if neq_str city "Unknown City"
                    then "near " +:+ py_str city +:+ ", " +:+ py_str state
                    else "at " +:+ lat_str +:+ ", " +:+ lon_str in
                  Done (forecast_text location_str ps)))))
              end
          | _ =>
              Done ("Error: Forecast data received for (" +:+ lat_str +:+ ", "
                      +:+ lon_str +:+ ") is missing the forecast periods.")
          end)
      end
  | Some _ =>
      Done ("Error: Received unexpected data format for the detailed forecast "
              +:+ grid_text grid_id grid_x grid_y +:+ ".")
  end.

(** [get_forecast] once the answer to the first request is there. *)
Definition after_points (lat_str lon_str : string) (points_data : option json)
  : tool_run :=
  match points_data with
  | None | Some JNull =>
      Done ("Error: Unable to get forecast grid point for location ("
              +:+ lat_str +:+ ", " +:+ lon_str
              +:+ "). The location might be outside the US or the API might be down.")
  | Some (JDict pd) =>
      match pd !! "properties" with
      | None =>
          Done ("Error: Received unexpected data format for location ("
                  +:+ lat_str +:+ ", " +:+ lon_str +:+ ").")
      | Some properties =>
          or_raise (get properties "forecast" JNull) (fun forecast_url =>
          or_raise (get properties "gridId" (JStr "N/A")) (fun grid_id =>
          or_raise (get properties "gridX" (JStr "N/A")) (fun grid_x =>
          or_raise (get properties "gridY" (JStr "N/A")) (fun grid_y =>
          if negb (truthy_json forecast_url) then
            let outside :=
              "Error: Location (" +:+ lat_str +:+ ", " +:+ lon_str
                +:+ ") is outside the NWS forecast coverage area (likely outside the US)." in
            if eq_int (default JNull (pd !! "status")) 404 then Done outside
            else
              or_raise (str_in "is outside the NWS operational area"
                          (default (JStr "") (pd !! "detail")))
                (fun mentioned =>
                   if (mentioned : bool) then Done outside
                   else
                     Done ("Error: Could not determine the specific forecast URL for location ("
                             +:+ lat_str +:+ ", " +:+ lon_str +:+ ")."))
          else
            Ask forecast_url
              (after_forecast properties forecast_url grid_id grid_x grid_y
                 lat_str lon_str)))))
      end
  | Some _ =>
      Done ("Error: Received unexpected data format for location ("
              +:+ lat_str +:+ ", " +:+ lon_str +:+ ").")
  end.

(** [get_forecast], whole. *)
Definition get_forecast_tool (latitude longitude : spec_float) : tool_run :=
  if negb (int_le_float (-90) latitude && float_le_int latitude 90
           && (int_le_float (-180) longitude && float_le_int longitude 180))
  then Done "Error: Invalid latitude or longitude values provided."
  else
    let lat_str := format_f 4 latitude in
    let lon_str := format_f 4 longitude in
    let points_url :=
      NWS_API_BASE +:+ "/points/" +:+ lat_str +:+ "," +:+ lon_str in
    Ask (JStr points_url) (after_points lat_str lon_str).

(** The URL [get_alerts] asks for. *)
Definition area_url (state : string) : string :=
  NWS_API_BASE +:+ "/alerts/active/area/" +:+ upper state.

(** A feature that is no object, or whose description is null. *)
Definition unformattable (feature : json) : Prop :=
  (forall m, feature <> JDict m)
  \/ exists m p, feature = JDict m /\ m !! "properties" = Some (JDict p)
                 /\ p !! "description" = Some JNull.

(** A field of the properties as an alert shows it. *)
Definition shown (p : gmap string json) (key dflt : string) : string :=
  py_str (default (JStr dflt) (p !! key)).

(** The URL of the first request of [get_forecast]. *)
Definition points_url (latitude longitude : spec_float) : string :=
  NWS_API_BASE +:+ "/points/" +:+ format_f 4 latitude +:+ ","
    +:+ format_f 4 longitude.

End Tools.

(** How a run of the first embedding of [get_forecast] ends against a
    network. *)
Fixpoint result {Json} (net : string -> option Json) (r : @run Json) : string :=
  match r with
  | Return s => s
  | Request url k => result net (k (net url))
  end.

(** *** Reading a number written with decimals *)

Definition digit_value (c : ascii) : Z := Z.of_nat (nat_of_ascii c) - 48.

(** The digits of [s] read as one integer, and how many of them follow
    the point. *)
Fixpoint read_digits (s : string) (acc : Z) (decimals : option nat)
  : option (Z * nat) :=
  match s with
  | EmptyString => Some (acc, default O decimals)
  | String c s' =>
      if Ascii.eqb c "."%char then
        match decimals with
        | None => read_digits s' acc (Some O)
        | Some _ => None
        end
      else if is_digit c
      then read_digits s' (acc * 10 + digit_value c) (S <$> decimals)
      else None
  end.

(** The number a decimal numeral stands for. *)
Definition decimal_value (s : string) : option Q :=
  let '(negative, digits) :=
    match s with
    | String "-"%char s' => (true, s')
    | _ => (false, s)
    end in
  match read_digits digits 0 None with
  | Some (n, k) =>
      Some (Qmake (if negative then - n else n) (Z.to_pos (10 ^ Z.of_nat k)))
  | None => None
  end.

(** The digits of [s] read as one integer, after [acc]. *)
Fixpoint number (s : string) (acc : Z) : Z :=
  match s with
  | EmptyString => acc
  | String c s' => number s' (acc * 10 + digit_value c)
  end.

(** *** Sample data *)

Definition ascii_upper_char (c : ascii) : ascii :=
  let n := nat_of_ascii c in
  if (97 <=? n)%nat && (n <=? 122)%nat then ascii_of_nat (n - 32) else c.

Fixpoint ascii_upper (s : string) : string :=
  match s with
  | EmptyString => EmptyString
  | String c s' => String (ascii_upper_char c) (ascii_upper s')
  end.

Definition is_letter (c : ascii) : bool :=
  let n := nat_of_ascii c in
  ((65 <=? n)%nat && (n <=? 90)%nat) || ((97 <=? n)%nat && (n <=? 122)%nat).

Fixpoint all_letters (s : string) : bool :=
  match s with
  | EmptyString => true
  | String c s' => is_letter c && all_letters s'
  end.

(** [str.isalpha] on ASCII text: non-empty and letters only. *)
Definition ascii_isalpha (s : string) : bool := truthy s && all_letters s.

(** [str()] of the values that occur in the samples. *)
Definition str_sample (v : json) : string :=
  match v with
  | JNull => "None"
  | JInt n => (if n <? 0 then "-" else "") +:+ str_int (Z.abs n)
  | JBool b => if b then "True" else "False"
  | _ => "?"
  end.

Definition flood_properties : gmap string json :=
  {[ "event" := JStr "Flood Warning";
     "description" := JStr " River rising. ";
     "instruction" := JNull ]}.

Definition flood_feature : gmap string json :=
  {[ "properties" := JDict flood_properties ]}.

Definition flood : json := JDict flood_feature.

Definition broken : json :=
  JDict {[ "properties" := JDict {[ "event" := JStr "Heat Advisory";
                                    "description" := JNull ]} ]}.

Definition alerts_net (features : list json) : json -> option json :=
  fun _ => Some (JDict {[ "features" := JList features ]}).

Definition period (n : Z) : json :=
  JDict {[ "name" := JStr "Tonight"; "temperature" := JInt n;
           "temperatureUnit" := JStr "F"; "detailedForecast" := JStr "Clear." ]}.

(** Points data without properties to speak of, and points data of a
    place outside the coverage. *)
Definition null_properties : gmap string json := {[ "properties" := JNull ]}.

Definition not_covered : gmap string json :=
  {[ "properties" := JDict ∅; "status" := JInt 404 ]}.

(** Nine periods, the eighth of them malformed. *)
Definition nine_periods : list json :=
  [period 61; period 62; period 63; period 64; period 65; period 66;
   period 67; JNull; period 69].

Definition periods_properties : gmap string json :=
  {[ "periods" := JList nine_periods ]}.

Definition forecast_data_sample : gmap string json :=
  {[ "properties" := JDict periods_properties ]}.

Definition forecast_url_sample : string :=
  "https://api.weather.gov/gridpoints/BOX/71,90/forecast".

Definition forecast_net (periods : list json) : json -> option json :=
  fun url =>
    match url with
    | JStr u =>
        if String.eqb u forecast_url_sample
        then Some (JDict {[ "properties" := JDict {[ "periods" := JList periods ]} ]})
        else Some (JDict {[ "properties" :=
                              JDict {[ "forecast" := JStr forecast_url_sample;
                                       "gridId" := JStr "BOX" ]} ]})
    | _ => None
    end.

End Nws.

(** ** Facts about the built-ins *)

Module PyFacts.
Import Py.

Lemma append_nil_l (s : string) : "" +:+ s = s.
Proof. reflexivity. Qed.

Lemma append_cons (c : ascii) (s t : string) :
  String c s +:+ t = String c (s +:+ t).
Proof. reflexivity. Qed.

Lemma append_empty_r (s : string) : s +:+ "" = s.
Proof.
  induction s as [|c s IH]; [reflexivity | now rewrite append_cons, IH].
Qed.

Lemma append_assoc (a b c : string) : (a +:+ b) +:+ c = a +:+ (b +:+ c).
Proof.
  induction a as [|x a IH]; [reflexivity | now rewrite !append_cons, IH].
Qed.

Lemma length_append (a b : string) :
  String.length (a +:+ b) = String.length a + String.length b.
Proof.
  induction a as [|x a IH]; [reflexivity|].
  rewrite append_cons. simpl. now rewrite IH.
Qed.

Lemma endswith_unfold (s suffix : string) :
  endswith s suffix
  = if String.eqb s suffix then true
    else match s with
         | EmptyString => false
         | String _ s' => endswith s' suffix
         end.
Proof. destruct s; reflexivity. Qed.

(** [endswith] holds exactly of the strings that are something followed
    by the suffix. *)
Lemma endswith_iff (s suffix : string) :
  endswith s suffix = true <-> exists p, s = p +:+ suffix.
Proof.
  split.
  - induction s as [|c s IH]; rewrite endswith_unfold.
    + destruct (String.eqb_spec "" suffix) as [E|E]; [|easy].
      intros _. exists "". now rewrite <- E.
    + destruct (String.eqb_spec (String c s) suffix) as [E|E].
      * intros _. exists "". now rewrite <- E.
      * intros H. destruct (IH H) as [p Hp]. exists (String c p).
        now rewrite append_cons, <- Hp.
  - intros [p Hp]. revert s Hp.
    induction p as [|c p IH]; intros s Hp; subst s; rewrite endswith_unfold.
    + now rewrite append_nil_l, String.eqb_refl.
    + rewrite append_cons.
      destruct (String.eqb (String c (p +:+ suffix)) suffix);
        [reflexivity | now apply IH].
Qed.

(** Two suffixes of one string that have the same length are equal. *)
Lemma suffix_same_length (p q a b : string) :
  p +:+ a = q +:+ b -> String.length a = String.length b -> a = b.
Proof.
  revert q. induction p as [|c p IH]; intros [|d q] E L;
    rewrite ?append_nil_l, ?append_cons in E.
  - exact E.
  - exfalso. rewrite E in L. simpl in L. rewrite length_append in L. lia.
  - exfalso. rewrite <- E in L. simpl in L. rewrite length_append in L. lia.
  - injection E as _ E. now apply (IH q).
Qed.

Lemma endswith_other (p s1 s2 : string) :
  String.length s1 = String.length s2 -> s1 <> s2 ->
  endswith (p +:+ s1) s2 = false.
Proof.
  intros L N. destruct (endswith (p +:+ s1) s2) eqn:E; [|reflexivity].
  apply endswith_iff in E as [q E]. exfalso. apply N.
  now apply (suffix_same_length p q).
Qed.

End PyFacts.

(** ** The client *)

Module ClientSpec.
Import Py PyFacts Client.

Section Connect.
Context {Args Schema : Type}.
Implicit Types (w : @world Args Schema) (path : string).

(** C9. A path that ends in neither ".py" nor ".js" makes
    [connect_to_server] raise ValueError("Server script must be a .py
    or .js file") with the client and the trace untouched: nothing was
    spawned and the session was not set. A path ending in ".py" is
    started with the command "python", one ending in ".js" with
    "node". *)
Theorem connect_to_server_checks_extension path w :
  ((forall p, path <> p +:+ ".py") -> (forall p, path <> p +:+ ".js") ->
   connect_to_server path w
   = (inl (Exn "ValueError" "Server script must be a .py or .js file"), w))
  /\ ((exists p, path = p +:+ ".py") ->
      exists tr, trace (connect_to_server path w).2
                 = trace w ++ EvStdioClient (ServerParams "python" [path]) :: tr)
  /\ ((exists p, path = p +:+ ".js") ->
      exists tr, trace (connect_to_server path w).2
                 = trace w ++ EvStdioClient (ServerParams "node" [path]) :: tr).
Proof.
  unfold connect_to_server. repeat split.
  - intros Hpy Hjs.
    destruct (endswith path ".py") eqn:E1.
    { apply endswith_iff in E1 as [p E]. now destruct (Hpy p). }
    destruct (endswith path ".js") eqn:E2.
    { apply endswith_iff in E2 as [p E]. now destruct (Hjs p). }
    reflexivity.
  - intros H. apply endswith_iff in H. rewrite H. simpl.
    eexists. unfold mbind, M_bind, bind, emit, list_tools, log; simpl.
    rewrite <- !app_assoc. reflexivity.
  - intros [p ->].
    rewrite (endswith_other p ".js" ".py") by (reflexivity || discriminate).
    assert (H : endswith (p +:+ ".js") ".js" = true)
      by (apply endswith_iff; eauto).
    rewrite H. simpl.
    eexists. unfold mbind, M_bind, bind, emit, list_tools, log; simpl.
    rewrite <- !app_assoc. reflexivity.
Qed.

End Connect.

Definition no_world : @world unit unit := World false [] [] [] [].

Lemma connect_to_server_checks_extension_witness :
  connect_to_server "server.rb" no_world
  = (inl (Exn "ValueError" "Server script must be a .py or .js file"), no_world)
  /\ (exists tr, trace (connect_to_server "weather.py" no_world).2
                 = trace no_world
                   ++ EvStdioClient (ServerParams "python" ["weather.py"]) :: tr)
  /\ (exists tr, trace (connect_to_server "build/index.js" no_world).2
                 = trace no_world
                   ++ EvStdioClient (ServerParams "node" ["build/index.js"]) :: tr).
Proof.
  split; [|split].
  - apply (proj1 (connect_to_server_checks_extension "server.rb" no_world)).
    + intros p E.
      assert (H : endswith "server.rb" ".py" = true)
        by (apply endswith_iff; eauto).
      vm_compute in H. discriminate.
    + intros p E.
      assert (H : endswith "server.rb" ".js" = true)
        by (apply endswith_iff; eauto).
      vm_compute in H. discriminate.
  - apply (proj1 (proj2 (connect_to_server_checks_extension "weather.py" no_world))).
    now exists "weather".
  - apply (proj2 (proj2 (connect_to_server_checks_extension "build/index.js" no_world))).
    now exists "build/index".
Defined.

(** *** process_query: how a run unfolds *)

Section Query.
Context {Args : Type} (str_args : Args -> string) {Schema : Type}.
Implicit Types (w : @world Args Schema) (bs post : list (@block Args))
  (l : @locals Args) (query : string) (ts : list string).

Ltac run_step :=
  unfold mbind, M_bind, mret, M_ret, bind, ret, raise, emit, try_except,
    list_tools, create, call_tool, log, set_completions, set_outcomes; simpl.

Lemma texts_map_text ts : texts (map (@TextBlock Args) ts) = ts.
Proof. induction ts as [|t ts IH]; simpl; congruence. Qed.

Lemma texts_app bs post : texts (bs ++ post) = texts bs ++ texts post.
Proof.
  induction bs as [|[t|i n a] bs IH]; simpl; [reflexivity| |exact IH].
  now rewrite IH.
Qed.

Lemma tool_uses_app bs post :
  tool_uses (bs ++ post) = tool_uses bs ++ tool_uses post.
Proof.
  induction bs as [|[t|i n a] bs IH]; simpl; [reflexivity|exact IH|].
  now rewrite IH.
Qed.

Lemma tool_uses_map_text ts : tool_uses (map (@TextBlock Args) ts) = [].
Proof. induction ts as [|t ts IH]; simpl; congruence. Qed.

(** Every content is a run of text blocks, then possibly a first
    tool-use block and whatever follows it. *)
Lemma blocks_split bs :
  tool_uses bs = []
  \/ exists ts id name input post,
       bs = map TextBlock ts ++ ToolUseBlock id name input :: post.
Proof.
  induction bs as [|[t|i n a] bs IH]; simpl.
  - now left.
  - destruct IH as [IH|(ts & id & name & input & post & ->)]; [now left|].
    right. now exists (t :: ts), id, name, input, post.
  - right. now exists [], i, n, a, bs.
Qed.

(** The loop over a content without tool-use blocks only collects the
    texts. *)
Lemma for_content_texts avail bs l w :
  tool_uses bs = [] ->
  for_content str_args avail bs l w
  = (inr (Locals (messages l) (response l) (final_text l ++ texts bs)), w).
Proof.
  revert l. induction bs as [|[t|i n a] bs IH]; intros l H; simpl in *.
  - rewrite app_nil_r. now destruct l.
  - rewrite IH by exact H. simpl. now rewrite <- app_assoc.
  - discriminate.
Qed.

(** Leading text blocks are collected, then the loop goes on. *)
Lemma for_content_skip avail ts bs l w :
  for_content str_args avail (map TextBlock ts ++ bs) l w
  = for_content str_args avail bs
      (Locals (messages l) (response l) (final_text l ++ ts)) w.
Proof.
  revert l. induction ts as [|t ts IH]; intros l; simpl.
  - rewrite app_nil_r. now destruct l.
  - rewrite IH. simpl. now rewrite <- app_assoc.
Qed.

(** A run whose first completion asks for no tool. *)
Lemma run_no_tool query w bs cs :
  session w = true -> completions w = inr bs :: cs -> tool_uses bs = [] ->
  process_query_locals str_args query w
  = (inr (Locals [user_says query; assistant_says (first_text bs)]
                 bs (texts bs)),
     World true (catalog w) cs (outcomes w)
       (trace w ++ [EvListTools;
                    EvCreate [user_says query] (tool_params (catalog w));
                    EvPrintFinal (texts bs)])).
Proof.
  intros Hs Hc Hb. destruct w as [s cat comps outs tr]; simpl in *; subst.
  unfold process_query_locals. run_step.
  rewrite for_content_texts by exact Hb. simpl.
  now rewrite <- !app_assoc.
Qed.

(** A run whose first completion has a tool-use block: the first such
    block is called; unless the call raises an exception that is no
    [Exception], its result is appended and the next completion is asked
    for. *)
Lemma run_tool query w ts id name input post cs :
  session w = true ->
  completions w
  = inr (map TextBlock ts ++ ToolUseBlock id name input :: post) :: cs ->
  let bs := map TextBlock ts ++ ToolUseBlock id name input :: post in
  let o := (next (Raises stop) (outcomes w)).1 in
  let os := (next (Raises stop) (outcomes w)).2 in
  let ms := [user_says query; assistant_blocks bs;
             user_result id (stored_result name o)] in
  let tr0 := trace w ++ [EvListTools;
                         EvCreate [user_says query] (tool_params (catalog w));
                         EvCallTool name input] in
  let tr := tr0 ++ [EvCreate ms (tool_params (catalog w))] in
  process_query_locals str_args query w
  = match o with
    | Raises e =>
        if is_exception e then
          match (next (inl stop) cs).1 with
          | inl e' => (inl e', World true (catalog w) (next (inl stop) cs).2 os tr)
          | inr bs2 =>
              (inr (Locals (ms ++ [assistant_says (first_text bs2)]) bs2
                           (ts ++ reported str_args name input o)),
               World true (catalog w) (next (inl stop) cs).2 os
                 (tr ++ [EvPrintFinal (ts ++ reported str_args name input o)]))
          end
        else (inl e, World true (catalog w) cs os tr0)
    | Returns _ =>
        match (next (inl stop) cs).1 with
        | inl e' => (inl e', World true (catalog w) (next (inl stop) cs).2 os tr)
        | inr bs2 =>
            (inr (Locals (ms ++ [assistant_says (first_text bs2)]) bs2
                         (ts ++ reported str_args name input o)),
             World true (catalog w) (next (inl stop) cs).2 os
               (tr ++ [EvPrintFinal (ts ++ reported str_args name input o)]))
        end
    end.
Proof.
  intros Hs Hc bs o os ms tr0 tr. subst bs o os ms tr0 tr.
  destruct w as [s cat comps outs tr]; simpl in *; subst.
  unfold process_query_locals. run_step.
  rewrite for_content_skip. simpl.
  unfold tool_use_branch. run_step.
  destruct outs as [|[e|[res|]] outs]; simpl;
    try destruct (is_exception e) eqn:He; simpl;
    destruct cs as [|[e'|bs2] cs]; simpl;
    rewrite <- ?app_assoc; simpl; reflexivity.
Qed.

(** The same run when the [try] around the call lets it go on. *)
Lemma run_tool_caught query w ts id name input post cs :
  session w = true ->
  completions w
  = inr (map TextBlock ts ++ ToolUseBlock id name input :: post) :: cs ->
  caught (next (Raises stop) (outcomes w)).1 = true ->
  let bs := map TextBlock ts ++ ToolUseBlock id name input :: post in
  let o := (next (Raises stop) (outcomes w)).1 in
  let os := (next (Raises stop) (outcomes w)).2 in
  let ms := [user_says query; assistant_blocks bs;
             user_result id (stored_result name o)] in
  let tr := trace w ++ [EvListTools;
                        EvCreate [user_says query] (tool_params (catalog w));
                        EvCallTool name input;
                        EvCreate ms (tool_params (catalog w))] in
  process_query_locals str_args query w
  = match (next (inl stop) cs).1 with
    | inl e => (inl e, World true (catalog w) (next (inl stop) cs).2 os tr)
    | inr bs2 =>
        (inr (Locals (ms ++ [assistant_says (first_text bs2)]) bs2
                     (ts ++ reported str_args name input o)),
         World true (catalog w) (next (inl stop) cs).2 os
           (tr ++ [EvPrintFinal (ts ++ reported str_args name input o)]))
    end.
Proof.
  intros Hs Hc Hk. cbv zeta. rewrite (run_tool query w ts id name input post cs Hs Hc).
  destruct (next (Raises stop) (outcomes w)).1 as [e|r]; simpl in Hk;
    rewrite ?Hk, <- ?app_assoc; reflexivity.
Qed.

(** The same run when the call raises an exception that is no
    [Exception]: the run ends with it, after the call and before any second
    inference call. *)
Lemma run_tool_uncaught query w ts id name input post cs e :
  session w = true ->
  completions w
  = inr (map TextBlock ts ++ ToolUseBlock id name input :: post) :: cs ->
  (next (Raises stop) (outcomes w)).1 = Raises e -> is_exception e = false ->
  process_query_locals str_args query w
  = (inl e,
     World true (catalog w) cs (next (Raises stop) (outcomes w)).2
       (trace w ++ [EvListTools;
                    EvCreate [user_says query] (tool_params (catalog w));
                    EvCallTool name input])).
Proof.
  intros Hs Hc Ho He.
  rewrite (run_tool query w ts id name input post cs Hs Hc), Ho.
  now rewrite He.
Qed.

(** *** Reading a trace *)

Lemma calls_app (tr1 tr2 : list (@event Args Schema)) :
  calls (tr1 ++ tr2) = calls tr1 ++ calls tr2.
Proof. apply flat_map_app. Qed.

Lemma creates_app (tr1 tr2 : list (@event Args Schema)) :
  creates (tr1 ++ tr2) = creates tr1 ++ creates tr2.
Proof. apply flat_map_app. Qed.

Lemma tool_result_dict_type id text :
  tool_result_dict id text !! "type" = Some (VStr "tool_result").
Proof. unfold tool_result_dict. apply lookup_insert_eq. Qed.

Lemma tool_result_dict_id id text :
  tool_result_dict id text !! "tool_use_id" = Some (VStr id).
Proof.
  unfold tool_result_dict.
  rewrite lookup_insert_ne by discriminate. apply lookup_insert_eq.
Qed.

Lemma tool_result_dict_content id text :
  tool_result_dict id text !! "content" = Some (VStr text).
Proof.
  unfold tool_result_dict.
  rewrite !lookup_insert_ne by discriminate. apply lookup_insert_eq.
Qed.

(** The dictionary has the three keys above and no other. *)
Lemma tool_result_dict_other id text key :
  key <> "type" -> key <> "tool_use_id" -> key <> "content" ->
  tool_result_dict id text !! key = None.
Proof.
  intros H1 H2 H3. unfold tool_result_dict.
  rewrite !lookup_insert_ne by congruence. apply lookup_empty.
Qed.

Lemma dict_tool_result_id_dict id text :
  dict_tool_result_id (tool_result_dict id text) = [id].
Proof.
  unfold dict_tool_result_id.
  now rewrite tool_result_dict_type, tool_result_dict_id.
Qed.

(** The text a run returns is the join of the lines it collected. *)
Lemma process_query_joins query w :
  process_query str_args query w
  = match process_query_locals str_args query w with
    | (inl e, w') => (inl e, w')
    | (inr l, w') => (inr (join newline (final_text l)), w')
    end.
Proof.
  unfold process_query. run_step.
  now destruct (process_query_locals str_args query w) as [[e|l] w'].
Qed.

(** *** The claims about process_query *)

(** C1. The first completion result is the only one whose blocks are
    looked at, and of its tool-use blocks only the first is called: the
    run adds to the trace the call for that block and no other. With two
    requests in one result the second is never executed, whether the first
    call fails or not. *)
Theorem process_query_calls_first_tool_only query w bs cs :
  session w = true -> completions w = inr bs :: cs ->
  calls (trace (process_query_locals str_args query w).2)
  = calls (trace w) ++ take 1 (map snd (tool_uses bs)).
Proof.
  intros Hs Hc.
  destruct (blocks_split bs) as [Hb|(ts & id & name & input & post & ->)].
  - rewrite (run_no_tool query w bs cs Hs Hc Hb), Hb. simpl.
    rewrite calls_app. simpl. reflexivity.
  - rewrite (run_tool query w ts id name input post cs Hs Hc).
    rewrite tool_uses_app, tool_uses_map_text. simpl.
    destruct (next (Raises stop) (outcomes w)).1 as [e0|r0];
      [destruct (is_exception e0)|];
      try destruct (next (inl stop) cs).1 as [e|bs2]; simpl;
      rewrite ?calls_app; simpl; rewrite ?app_nil_r; reflexivity.
Qed.

(** C2. When the first completion result has tool-use blocks, the
    conversation handed to the second inference call holds the id of every
    one of them in its assistant message, and a tool result for the first
    of them only. (The second call is made unless the call of the first
    tool raises an exception that is no [Exception]: that one ends the run
    after the first inference call.) *)
Theorem process_query_second_request_ids query w bs cs :
  session w = true -> completions w = inr bs :: cs -> tool_uses bs <> [] ->
  (caught (next (Raises stop) (outcomes w)).1 = true ->
   exists ms,
     creates (trace (process_query_locals str_args query w).2)
     = creates (trace w) ++ [[user_says query]; ms]
     /\ tool_use_ids ms = map fst (tool_uses bs)
     /\ tool_result_ids ms = take 1 (map fst (tool_uses bs)))
  /\ (caught (next (Raises stop) (outcomes w)).1 = false ->
      creates (trace (process_query_locals str_args query w).2)
      = creates (trace w) ++ [[user_says query]]
      /\ exists e, (process_query_locals str_args query w).1 = inl e).
Proof.
  intros Hs Hc Hb.
  destruct (blocks_split bs) as [Hb'|(ts & id & name & input & post & ->)];
    [now destruct Hb|].
  split; intros Hk.
  - rewrite (run_tool_caught query w ts id name input post cs Hs Hc Hk).
    eexists. split; [|split].
    + destruct (next (inl stop) cs).1 as [e|bs2]; simpl;
        rewrite ?creates_app; simpl; rewrite ?app_nil_r; reflexivity.
    + unfold tool_use_ids. simpl. now rewrite app_nil_r.
    + unfold tool_result_ids. simpl.
      rewrite dict_tool_result_id_dict, tool_uses_app, tool_uses_map_text.
      reflexivity.
  - destruct (next (Raises stop) (outcomes w)).1 as [e|r] eqn:Ho;
      simpl in Hk; [|discriminate].
    rewrite (run_tool_uncaught query w ts id name input post cs e Hs Hc Ho Hk).
    cbn [fst snd trace]. split; [|now exists e].
    rewrite creates_app. simpl. reflexivity.
Qed.

(** C3 (as amended). When the first completion result has no tool-use
    block, the run ends after that one inference call, without any tool
    call, and returns the texts of the result's text blocks, in order,
    joined by newlines. *)
Theorem process_query_without_tool_use query w bs cs :
  session w = true -> completions w = inr bs :: cs -> tool_uses bs = [] ->
  exists w',
    process_query str_args query w = (inr (join newline (texts bs)), w')
    /\ creates (trace w') = creates (trace w) ++ [[user_says query]]
    /\ calls (trace w') = calls (trace w)
    /\ completions w' = cs.
Proof.
  intros Hs Hc Hb. rewrite process_query_joins.
  rewrite (run_no_tool query w bs cs Hs Hc Hb). simpl.
  eexists. split; [reflexivity|]. simpl.
  rewrite creates_app, calls_app. simpl. now rewrite app_nil_r.
Qed.

(** C4 (as amended). When the call of the first tool-use block raises an
    exception that is an [Exception], the run goes on: the conversation
    handed to the next inference call ends with a user message holding one
    tool result, whose [tool_use_id] is the block's id and whose content is
    "Error calling tool " + name + ": " + message; the dictionary has no
    error flag. A result that reports an error ([isError] true) without
    raising is not turned into such a message: its content is stored as it
    is, again without a flag. With a second completion result the run
    returns normally in both cases. An exception that is no [Exception]
    is not caught: it ends the run before any tool result is built. *)
Theorem process_query_tool_failure_recovered
    query w ts id name input post os bs2 cs :
  session w = true ->
  completions w
  = inr (map TextBlock ts ++ ToolUseBlock id name input :: post)
      :: inr bs2 :: cs ->
  let bs := map TextBlock ts ++ ToolUseBlock id name input :: post in
  let recovered content :=
    let d := tool_result_dict id content in
    let ms := [user_says query; assistant_blocks bs;
               Message "user" (CDicts [d])] in
    exists l w',
      process_query_locals str_args query w = (inr l, w')
      /\ messages l = ms ++ [assistant_says (first_text bs2)]
      /\ creates (trace w') = creates (trace w) ++ [[user_says query]; ms]
      /\ d !! "tool_use_id" = Some (VStr id)
      /\ d !! "content" = Some (VStr content)
      /\ d !! "is_error" = None
      /\ d !! "isError" = None in
  (forall e, outcomes w = Raises e :: os -> is_exception e = true ->
     recovered ("Error calling tool " +:+ name +:+ ": " +:+ exn_str e))
  /\ (forall r, outcomes w = Returns (Some r) :: os -> isError r = true ->
        recovered (if truthy (result_content r) then result_content r else ""))
  /\ (forall e, outcomes w = Raises e :: os -> is_exception e = false ->
        (process_query_locals str_args query w).1 = inl e
        /\ creates (trace (process_query_locals str_args query w).2)
           = creates (trace w) ++ [[user_says query]]).
Proof.
  intros Hs Hc bs recovered. subst bs recovered. cbv beta zeta.
  assert (R : forall o,
            outcomes w = o :: os -> caught o = true ->
            exists l w',
              process_query_locals str_args query w = (inr l, w')
              /\ messages l
                 = [user_says query;
                    assistant_blocks
                      (map TextBlock ts ++ ToolUseBlock id name input :: post);
                    user_result id (stored_result name o)]
                   ++ [assistant_says (first_text bs2)]
              /\ creates (trace w')
                 = creates (trace w)
                   ++ [[user_says query];
                       [user_says query;
                        assistant_blocks
                          (map TextBlock ts
                             ++ ToolUseBlock id name input :: post);
                        user_result id (stored_result name o)]]).
  { intros o Ho Hk.
    rewrite (run_tool_caught query w ts id name input post _ Hs Hc)
      by (now rewrite Ho).
    rewrite Ho. simpl. eexists _, _. split; [reflexivity|].
    split; [reflexivity|].
    cbn [trace]. rewrite !creates_app. simpl. now rewrite app_nil_r. }
  split; [|split].
  - intros e Ho He. destruct (R _ Ho He) as (l & w' & Hrun & Hms & Hcr).
    exists l, w'. split; [exact Hrun|]. split; [exact Hms|].
    split; [exact Hcr|].
    split; [apply tool_result_dict_id|].
    split; [apply tool_result_dict_content|].
    split; now apply tool_result_dict_other.
  - intros r Ho _. destruct (R _ Ho eq_refl) as (l & w' & Hrun & Hms & Hcr).
    exists l, w'. split; [exact Hrun|]. split; [exact Hms|].
    split; [exact Hcr|].
    split; [apply tool_result_dict_id|].
    split; [apply tool_result_dict_content|].
    split; now apply tool_result_dict_other.
  - intros e Ho He.
    assert (Hn : (next (Raises stop) (outcomes w)).1 = Raises e)
      by (now rewrite Ho).
    rewrite (run_tool_uncaught query w ts id name input post _ e Hs Hc Hn He).
    cbn [fst snd trace]. split; [reflexivity|].
    rewrite creates_app. simpl. reflexivity.
Qed.


(** C6 (as amended). In the single-tool scenario the conversation ends
    with exactly four messages: the query, the assistant message with the
    tool-use block, the user message with the tool result "Sunny, 70F",
    and the assistant message with the final text. The returned string
    begins with the line that announces the call. *)
Theorem process_query_single_tool_scenario
    (cat : list (@tool Schema)) (tr : list (@event Args Schema)) (input : Args) :
  let first := [ToolUseBlock "t1" "get_forecast" input] in
  let w := World true cat
             [inr first; inr [TextBlock "It will be sunny, 70F in Boston."]]
             [Returns (Some (CallResult "Sunny, 70F" false))] tr in
  transcript (process_query_locals str_args "forecast for Boston" w).1
  = inr [user_says "forecast for Boston";
         assistant_blocks first;
         user_result "t1" "Sunny, 70F";
         assistant_says "It will be sunny, 70F in Boston."]
  /\ exists rest,
       (process_query str_args "forecast for Boston" w).1
       = inr (calling_line str_args "get_forecast" input +:+ rest).
Proof.
  intros first w. rewrite process_query_joins.
  rewrite (run_tool "forecast for Boston" w [] "t1" "get_forecast" input [] _
             eq_refl eq_refl).
  simpl. split; [reflexivity|]. exists "". now rewrite append_empty_r.
Qed.

(** C7 (as amended). When the call of the first tool-use block raises an
    exception that is an [Exception], the failure is visible in the text
    the run returns: the error string "Error calling tool " + name + ": " +
    message is one of its lines, right after the texts that came before
    the block and the line that announces the call; the same string is the
    content of the tool result in the conversation. *)
Theorem process_query_tool_failure_reported
    query w ts id name input post e os bs2 cs :
  session w = true ->
  completions w
  = inr (map TextBlock ts ++ ToolUseBlock id name input :: post)
      :: inr bs2 :: cs ->
  outcomes w = Raises e :: os ->
  is_exception e = true ->
  exists l w' after,
    process_query_locals str_args query w = (inr l, w')
    /\ (process_query str_args query w).1
       = inr (join newline
                (ts ++ [calling_line str_args name input; error_line name e]
                    ++ after))
    /\ messages l !! 2%nat = Some (user_result id (error_line name e)).
Proof.
  intros Hs Hc Ho He. rewrite process_query_joins.
  rewrite (run_tool_caught query w ts id name input post _ Hs Hc)
    by (now rewrite Ho).
  rewrite Ho. simpl. eexists _, _, []. now repeat split.
Qed.

(** *** Replay: a run is decided by the query and the scripts *)

Lemma same_script_log ev1 ev2 w1 w2 :
  same_script w1 w2 -> same_script (log ev1 w1) (log ev2 w2).
Proof. intros (H1 & H2 & H3). now repeat split. Qed.

Lemma bind_agree {A B} (m1 m2 : M A) (k1 k2 : A -> M B) w1 w2 :
  agree (m1 w1) (m2 w2) ->
  (forall a v1 v2, same_script v1 v2 -> agree (k1 a v1) (k2 a v2)) ->
  agree (bind m1 k1 w1) (bind m2 k2 w2).
Proof.
  intros [Hr Hw] Hk. unfold bind.
  destruct (m1 w1) as [[e1|a1] v1], (m2 w2) as [[e2|a2] v2];
    simpl in *; try discriminate.
  - injection Hr as ->. now split.
  - injection Hr as ->. now apply Hk.
Qed.

Lemma emit_agree ev1 ev2 w1 w2 :
  same_script w1 w2 -> agree (emit ev1 w1) (emit ev2 w2).
Proof. intros H. split; [reflexivity|]. now apply same_script_log. Qed.

Lemma create_agree ms1 ms2 (tools1 tools2 : list (@tool_param Schema)) w1 w2 :
  same_script w1 w2 -> agree (create ms1 tools1 w1) (create ms2 tools2 w2).
Proof.
  intros (H1 & H2 & H3). unfold create, agree, same_script. simpl.
  rewrite H2. destruct (next (inl stop) (completions w2)) as [r cs]. simpl.
  now repeat split.
Qed.

Lemma call_tool_agree name (args : Args) w1 w2 :
  same_script w1 w2 -> agree (call_tool name args w1) (call_tool name args w2).
Proof.
  intros (H1 & H2 & H3). unfold call_tool, agree, same_script. simpl.
  rewrite H1, H3. destruct (session w2) eqn:Hs;
    [|repeat split; simpl; congruence].
  destruct (next (Raises stop) (outcomes w2)) as [o os]. simpl.
  repeat split; congruence.
Qed.

Lemma tool_use_branch_agree avail1 avail2 id name input l w1 w2 :
  same_script w1 w2 ->
  agree (tool_use_branch str_args avail1 id name input l w1)
        (tool_use_branch str_args avail2 id name input l w2).
Proof.
  intros H. unfold tool_use_branch, mbind, M_bind.
  apply bind_agree.
  - unfold try_except, bind, mret, M_ret, ret.
    destruct (call_tool_agree name input w1 w2 H) as [Hr Hw].
    destruct (call_tool name input w1) as [[e1|r1] v1],
             (call_tool name input w2) as [[e2|r2] v2];
      simpl in *; try discriminate.
    + injection Hr as ->. destruct (is_exception e2); now split.
    + injection Hr as ->. now split.
  - intros [tool_result final_text2] v1 v2 Hv.
    apply bind_agree; [now apply create_agree|].
    intros bs u1 u2 Hu. now split.
Qed.

Lemma for_content_agree avail1 avail2 bs l w1 w2 :
  same_script w1 w2 ->
  agree (for_content str_args avail1 bs l w1)
        (for_content str_args avail2 bs l w2).
Proof.
  intros H. revert l. induction bs as [|[t|id name input] bs IH]; intros l; simpl.
  - now split.
  - apply IH.
  - now apply tool_use_branch_agree.
Qed.

Lemma bind_list_tools {B} (k : list (@tool Schema) -> M B) w :
  bind list_tools k w
  = if session w then k (catalog w) (log EvListTools w)
    else (inl (Exn "AttributeError"
                   "'NoneType' object has no attribute 'list_tools'"), w).
Proof. unfold bind, list_tools. now destruct (session w). Qed.

Lemma process_query_locals_agree query w1 w2 :
  same_script w1 w2 ->
  agree (process_query_locals str_args query w1)
        (process_query_locals str_args query w2).
Proof.
  intros H. unfold process_query_locals, mbind, M_bind.
  rewrite !bind_list_tools.
  destruct H as (H1 & H2 & H3). rewrite H1.
  destruct (session w2) eqn:Hs; [|repeat split; simpl; congruence].
  assert (H' : same_script (log EvListTools w1) (log EvListTools w2))
    by (repeat split; simpl; congruence).
  apply bind_agree; [now apply create_agree|].
  intros bs v1 v2 Hv.
  apply bind_agree; [now apply for_content_agree|].
  intros l u1 u2 Hu.
  apply bind_agree; [now apply emit_agree|].
  intros _ ? ? ?. now split.
Qed.

(** C8. Two runs with the same query, in worlds that hold the same scripts
    of completion results and tool outcomes, return the same text and end
    with the same conversation, or end with the same exception; what the
    server lists and what happened before have no part in it. The scripts
    left over are the same too. *)
Theorem process_query_replay query w1 w2 :
  same_script w1 w2 ->
  (process_query str_args query w1).1 = (process_query str_args query w2).1
  /\ transcript (process_query_locals str_args query w1).1
     = transcript (process_query_locals str_args query w2).1
  /\ same_script (process_query str_args query w1).2
                 (process_query str_args query w2).2.
Proof.
  intros H. rewrite !process_query_joins.
  destruct (process_query_locals_agree query w1 w2 H) as [Hr Hw].
  destruct (process_query_locals str_args query w1) as [[e1|l1] v1],
           (process_query_locals str_args query w2) as [[e2|l2] v2];
    simpl in *; try discriminate; injection Hr as ->;
    (split; [reflexivity | split; [reflexivity | exact Hw]]).
Qed.

End Query.

(** *** The claims at concrete runs *)

Lemma process_query_calls_first_tool_only_witness :
  session two_tools_world = true
  /\ length (tool_uses
               [ToolUseBlock "t1" "get_forecast" boston_args;
                ToolUseBlock "t2" "get_alerts" [("state", "'MA'")]]) = 2
  /\ calls (trace (process_query_locals str_mapping "weather in Boston?"
                     two_tools_world).2)
     = [("get_forecast", boston_args)].
Proof.
  split; [reflexivity|]. split; [reflexivity|].
  exact (process_query_calls_first_tool_only str_mapping "weather in Boston?"
           two_tools_world _ _ eq_refl eq_refl).
Defined.

Lemma process_query_second_request_ids_witness :
  session two_tools_world = true
  /\ caught (next (Raises stop) (outcomes two_tools_world)).1 = true
  /\ exists ms,
       creates (trace (process_query_locals str_mapping "weather in Boston?"
                         two_tools_world).2)
       = [[user_says "weather in Boston?"]; ms]
       /\ tool_use_ids ms = ["t1"; "t2"]
       /\ tool_result_ids ms = ["t1"].
Proof.
  split; [reflexivity|]. split; [reflexivity|].
  apply (proj1 (process_query_second_request_ids str_mapping
                  "weather in Boston?" two_tools_world _ _
                  eq_refl eq_refl ltac:(discriminate))).
  reflexivity.
Defined.

Lemma process_query_without_tool_use_witness :
  session two_texts_world = true
  /\ exists w',
       process_query str_mapping "hi" two_texts_world
       = (inr ("Hello" +:+ newline +:+ "world"), w')
       /\ creates (trace w') = [[user_says "hi"]]
       /\ calls (trace w') = []
       /\ completions w' = [].
Proof.
  split; [reflexivity|].
  exact (process_query_without_tool_use str_mapping "hi" two_texts_world
           _ _ eq_refl eq_refl eq_refl).
Defined.

(** With two text blocks the returned string has a newline between the
    texts: it is not their concatenation. *)
Lemma process_query_texts_not_concatenated :
  session two_texts_world = true
  /\ completions two_texts_world = [inr [TextBlock "Hello"; TextBlock "world"]]
  /\ tool_uses [@TextBlock (list (string * string)) "Hello"; TextBlock "world"] = []
  /\ (process_query str_mapping "hi" two_texts_world).1
     = inr ("Hello" +:+ newline +:+ "world")
  /\ (process_query str_mapping "hi" two_texts_world).1
     <> inr (String.concat ""
               (texts [@TextBlock (list (string * string)) "Hello";
                       TextBlock "world"])).
Proof.
  repeat (split; [reflexivity|]). vm_compute. discriminate.
Qed.

Lemma process_query_tool_failure_recovered_witness :
  session (boston_world (Raises timeout)) = true
  /\ is_exception timeout = true
  /\ isError upstream = true
  /\ (exists l w',
        process_query_locals str_mapping "forecast for Boston"
          (boston_world (Raises timeout)) = (inr l, w')
        /\ messages l
           = [user_says "forecast for Boston";
              assistant_blocks [ToolUseBlock "t1" "get_forecast" boston_args];
              user_result "t1" "Error calling tool get_forecast: timeout";
              assistant_says "It will be sunny, 70F in Boston."]
        /\ length (creates (trace w')) = 2)
  /\ (exists l w',
        process_query_locals str_mapping "forecast for Boston"
          (boston_world (Returns (Some upstream))) = (inr l, w')
        /\ messages l
           = [user_says "forecast for Boston";
              assistant_blocks [ToolUseBlock "t1" "get_forecast" boston_args];
              user_result "t1" "upstream timeout";
              assistant_says "It will be sunny, 70F in Boston."]
        /\ length (creates (trace w')) = 2).
Proof.
  split; [reflexivity|]. split; [reflexivity|]. split; [reflexivity|]. split.
  - destruct (proj1 (process_query_tool_failure_recovered str_mapping
                       "forecast for Boston" (boston_world (Raises timeout))
                       [] "t1" "get_forecast" boston_args [] [] _ _
                       eq_refl eq_refl) timeout eq_refl eq_refl)
      as (l & w' & Hrun & Hms & Hcr & _).
    exists l, w'. split; [exact Hrun|]. split; [exact Hms|].
    now rewrite Hcr.
  - destruct (proj1 (proj2 (process_query_tool_failure_recovered str_mapping
                       "forecast for Boston"
                       (boston_world (Returns (Some upstream)))
                       [] "t1" "get_forecast" boston_args [] [] _ _
                       eq_refl eq_refl)) upstream eq_refl eq_refl)
      as (l & w' & Hrun & Hms & Hcr & _).
    exists l, w'. split; [exact Hrun|]. split; [exact Hms|].
    now rewrite Hcr.
Defined.

(** Three failing calls. The tool result built for a call that raised has
    no error flag. A result that reports an error without raising is
    stored with its own content, not with the error string, and without a
    flag. A call that raises [CancelledError] ends the run with that
    exception, after one inference call. *)
Lemma process_query_failed_result_has_no_flag :
  (exists l d,
     (process_query_locals str_mapping "forecast for Boston"
        (boston_world (Raises timeout))).1 = inr l
     /\ messages l !! 2%nat = Some (Message "user" (CDicts [d]))
     /\ d !! "tool_use_id" = Some (VStr "t1")
     /\ d !! "content" = Some (VStr "Error calling tool get_forecast: timeout")
     /\ d !! "is_error" <> Some (VBool true)
     /\ d !! "isError" <> Some (VBool true))
  /\ (isError upstream = true
      /\ exists l d,
           (process_query_locals str_mapping "forecast for Boston"
              (boston_world (Returns (Some upstream)))).1 = inr l
           /\ messages l !! 2%nat = Some (Message "user" (CDicts [d]))
           /\ d !! "tool_use_id" = Some (VStr "t1")
           /\ d !! "content" = Some (VStr "upstream timeout")
           /\ d !! "content"
              <> Some (VStr "Error calling tool get_forecast: upstream timeout")
           /\ d !! "is_error" <> Some (VBool true)
           /\ d !! "isError" <> Some (VBool true))
  /\ (is_exception cancelled = false
      /\ (process_query_locals str_mapping "forecast for Boston"
            (boston_world (Raises cancelled))).1 = inl cancelled
      /\ creates (trace (process_query_locals str_mapping "forecast for Boston"
                           (boston_world (Raises cancelled))).2)
         = [[user_says "forecast for Boston"]]).
Proof.
  split; [|split].
  - eexists _, _. split; [reflexivity|]. split; [reflexivity|].
    split; [apply tool_result_dict_id|].
    split; [apply tool_result_dict_content|].
    split; rewrite tool_result_dict_other; discriminate.
  - split; [reflexivity|].
    eexists _, _. split; [reflexivity|]. split; [reflexivity|].
    split; [apply tool_result_dict_id|].
    split; [apply tool_result_dict_content|].
    split; [rewrite tool_result_dict_content; discriminate|].
    split; rewrite tool_result_dict_other; discriminate.
  - split; [reflexivity|]. split; reflexivity.
Qed.


(** In the single-tool scenario the returned string is the line that
    announces the call, not the final text. *)
Lemma process_query_single_tool_answer :
  (process_query str_mapping "forecast for Boston" (boston_world sunny)).1
  = inr "[Calling tool get_forecast with args {'lat': 42.36, 'lon': -71.06}]"
  /\ (process_query str_mapping "forecast for Boston" (boston_world sunny)).1
     <> inr "It will be sunny, 70F in Boston.".
Proof. split; [reflexivity | vm_compute; discriminate]. Qed.

Lemma process_query_tool_failure_reported_witness :
  session (boston_world (Raises timeout)) = true
  /\ is_exception timeout = true
  /\ exists l w' after,
       process_query_locals str_mapping "forecast for Boston"
         (boston_world (Raises timeout)) = (inr l, w')
       /\ (process_query str_mapping "forecast for Boston"
             (boston_world (Raises timeout))).1
          = inr (join newline
                   (["[Calling tool get_forecast with args {'lat': 42.36, 'lon': -71.06}]";
                     "Error calling tool get_forecast: timeout"] ++ after))
       /\ messages l !! 2%nat
          = Some (user_result "t1" "Error calling tool get_forecast: timeout").
Proof.
  split; [reflexivity|]. split; [reflexivity|].
  exact (process_query_tool_failure_reported str_mapping
           "forecast for Boston" (boston_world (Raises timeout))
           [] "t1" "get_forecast" boston_args [] timeout [] _ _
           eq_refl eq_refl eq_refl eq_refl).
Defined.

(** With the completion results unchanged, a failing tool call changes the
    returned text: the error message is part of it. *)
Lemma process_query_failure_shows_in_answer :
  completions (boston_world (Raises timeout)) = completions (boston_world sunny)
  /\ (process_query str_mapping "forecast for Boston"
        (boston_world (Raises timeout))).1
     <> (process_query str_mapping "forecast for Boston" (boston_world sunny)).1
  /\ exists before,
       (process_query str_mapping "forecast for Boston"
          (boston_world (Raises timeout))).1
       = inr (before +:+ "Error calling tool get_forecast: timeout").
Proof.
  split; [reflexivity|]. split; [vm_compute; discriminate|].
  eexists (_ +:+ newline). rewrite append_assoc. reflexivity.
Qed.

Lemma process_query_replay_witness :
  same_script (boston_world sunny) replayed_world
  /\ (process_query str_mapping "forecast for Boston" (boston_world sunny)).1
     = (process_query str_mapping "forecast for Boston" replayed_world).1
  /\ transcript (process_query_locals str_mapping "forecast for Boston"
                   (boston_world sunny)).1
     = transcript (process_query_locals str_mapping "forecast for Boston"
                     replayed_world).1.
Proof.
  assert (H : same_script (boston_world sunny) replayed_world)
    by (repeat split).
  split; [exact H|].
  destruct (process_query_replay str_mapping "forecast for Boston"
              (boston_world sunny) replayed_world H) as (H1 & H2 & _).
  split; [exact H1 | exact H2].
Defined.

End ClientSpec.

(** ** The forecast tool *)

Module WeatherSpec.
Import Py PyFacts Weather.
Local Open Scope Z_scope.

(** *** The range check reads the floats as numbers *)

Lemma in_range_within (lo hi : Z) (x : spec_float) :
  int_le_float lo x && float_le_int x hi = true <-> within lo hi x.
Proof.
  unfold within, int_le_float, float_le_int.
  destruct x as [s|s| |s m e]; simpl.
  - now rewrite andb_true_iff, !Qle_bool_iff.
  - destruct s; simpl; intuition discriminate.
  - intuition discriminate.
  - destruct e as [|p|p]; now rewrite andb_true_iff, !Qle_bool_iff.
Qed.

(** The boundary is inside, and what lies beyond it by one unit in the last
    place of the float is outside. *)
Example within_90 : within (-90) 90 f_90.
Proof. now apply in_range_within. Qed.

Example not_within_above_90 :
  ~ within (-90) 90 (S754_finite false 6333186975989761 (-46)).
Proof. intros H. apply in_range_within in H. vm_compute in H. discriminate. Qed.

(** *** Rounding and the digits of a formatted number *)

(** The rounded quotient is a nearest integer: it is off by at most one
    half. *)
Lemma round_half_even_nearest (num den : Z) :
  0 < den ->
  Z.abs (2 * num - 2 * den * round_half_even num den) <= den.
Proof.
  intros Hden. unfold round_half_even.
  pose proof (Z.div_mod num den ltac:(lia)) as E.
  pose proof (Z.mod_pos_bound num den Hden) as B.
  destruct (Z.compare_spec (2 * (num mod den)) den) as [C|C|C];
    [destruct (Z.even (num / den))| |]; nia.
Qed.

Example format_f_examples :
  format_f 4 f_42_36 = "42.3600" /\ format_f 4 f_m71_06 = "-71.0600"
  /\ format_f 4 f_0_00015 = "0.0001" /\ format_f 4 f_0_00005 = "0.0001"
  /\ format_f 4 f_0_125 = "0.1250" /\ format_f 2 f_0_125 = "0.12"
  /\ format_f 0 f_0_125 = "0" /\ format_f 4 (S754_zero true) = "-0.0000".
Proof. now vm_compute. Qed.

Lemma is_digit_digit (d : Z) : 0 <= d < 10 -> is_digit (digit d) = true.
Proof.
  intros H.
  assert (C : d = 0 \/ d = 1 \/ d = 2 \/ d = 3 \/ d = 4 \/ d = 5 \/ d = 6
              \/ d = 7 \/ d = 8 \/ d = 9) by lia.
  repeat (destruct C as [->|C]; [reflexivity|]). now subst.
Qed.

Lemma frac_digits_length (p : nat) (n : Z) (acc : string) :
  String.length (frac_digits p n acc) = (p + String.length acc)%nat.
Proof.
  revert n acc. induction p as [|p IH]; intros n acc; simpl; [reflexivity|].
  rewrite IH. simpl. lia.
Qed.

Lemma frac_digits_all_digits (p : nat) (n : Z) (acc : string) :
  all_digits acc = true -> all_digits (frac_digits p n acc) = true.
Proof.
  revert n acc. induction p as [|p IH]; intros n acc H; simpl; [exact H|].
  apply IH. simpl. rewrite H, andb_true_r.
  apply is_digit_digit, Z.mod_pos_bound. lia.
Qed.

Lemma string_of_uint_all_digits (d : Decimal.uint) :
  all_digits (NilEmpty.string_of_uint d) = true.
Proof. induction d; simpl; auto. Qed.

Lemma str_int_all_digits (n : Z) : all_digits (str_int n) = true.
Proof.
  unfold str_int, NilZero.string_of_uint.
  destruct (N.to_uint (Z.to_N n)) eqn:E; try reflexivity;
    rewrite <- E; apply string_of_uint_all_digits.
Qed.

Lemma all_digits_no_point (s : string) :
  all_digits s = true -> after_point s = None.
Proof.
  induction s as [|c s IH]; simpl; [reflexivity|].
  intros H. apply andb_true_iff in H as [Hc Hs].
  destruct (Ascii.eqb_spec c "."%char) as [->|_]; [discriminate|].
  now apply IH.
Qed.

Lemma after_point_app (a b : string) :
  after_point a = None -> after_point (a +:+ String "."%char b) = Some b.
Proof.
  induction a as [|c a IH]; [reflexivity|].
  rewrite append_cons. simpl.
  destruct (Ascii.eqb c "."%char); [discriminate | exact IH].
Qed.

(** A number written by [fixed] with [p > 0] has exactly [p] decimal
    places. *)
Lemma fixed_has_decimals (p : nat) (s : bool) (n : Z) :
  has_decimals (S p) (fixed (S p) s n) = true.
Proof.
  unfold has_decimals, fixed.
  set (ip := str_int (n / 10 ^ Z.of_nat (S p))).
  set (fp := frac_digits (S p) (n mod 10 ^ Z.of_nat (S p)) "").
  assert (E : after_point ((if s then "-" else "") +:+ ip +:+ "." +:+ fp)
              = Some fp).
  { change ("." +:+ fp) with (String "."%char fp).
    rewrite <- append_assoc. apply after_point_app.
    destruct s.
    - change ("-" +:+ ip) with (String "-"%char ip). simpl.
      apply all_digits_no_point, str_int_all_digits.
    - rewrite append_nil_l. apply all_digits_no_point, str_int_all_digits. }
  rewrite E. subst fp.
  rewrite frac_digits_length, frac_digits_all_digits by reflexivity.
  simpl. now rewrite Nat.add_0_r, Nat.eqb_refl.
Qed.

Lemma format_f_has_decimals (p : nat) (x : spec_float) (v : Q) :
  float_value x = Some v -> has_decimals (S p) (format_f (S p) x) = true.
Proof.
  destruct x as [s|s| |s m e]; try discriminate; intros _;
    apply fixed_has_decimals.
Qed.

Section Forecast.
Context {Json : Type}
  (forecast_from_points : Json -> string -> string -> @run Json).

(** C10. With a latitude outside [-90, 90] or a longitude outside
    [-180, 180] (NaN and the infinities are outside) [get_forecast] returns
    "Error: Invalid latitude or longitude values provided." and makes no
    request. With both in range its first request goes to the points
    endpoint, with latitude and longitude written with exactly four decimal
    places. *)
Theorem get_forecast_validates_coordinates (latitude longitude : spec_float) :
  ((~ within (-90) 90 latitude \/ ~ within (-180) 180 longitude) ->
   get_forecast forecast_from_points latitude longitude
   = Return "Error: Invalid latitude or longitude values provided."
   /\ forall net,
        requests net (get_forecast forecast_from_points latitude longitude) = [])
  /\ (within (-90) 90 latitude -> within (-180) 180 longitude ->
      exists lat_str lon_str k,
        get_forecast forecast_from_points latitude longitude
        = Request (NWS_API_BASE +:+ "/points/" +:+ lat_str +:+ "," +:+ lon_str) k
        /\ lat_str = format_f 4 latitude /\ lon_str = format_f 4 longitude
        /\ has_decimals 4 lat_str = true /\ has_decimals 4 lon_str = true).
Proof.
  unfold get_forecast. split.
  - intros H.
    assert (E : int_le_float (-90) latitude && float_le_int latitude 90
                && (int_le_float (-180) longitude && float_le_int longitude 180)
                = false).
    { apply not_true_is_false. intros T. apply andb_true_iff in T as [T1 T2].
      apply in_range_within in T1, T2. tauto. }
    rewrite E. simpl. now split.
  - intros Hlat Hlon.
    assert (Vlat : exists v, float_value latitude = Some v)
      by (unfold within in Hlat; destruct (float_value latitude); [eauto|easy]).
    assert (Vlon : exists v, float_value longitude = Some v)
      by (unfold within in Hlon; destruct (float_value longitude); [eauto|easy]).
    apply in_range_within in Hlat, Hlon. rewrite Hlat, Hlon. simpl.
    destruct Vlat as [v1 V1], Vlon as [v2 V2].
    eexists _, _, _. split; [reflexivity|].
    split; [reflexivity|]. split; [reflexivity|].
    split; eapply (format_f_has_decimals 3); eassumption.
Qed.

End Forecast.

Lemma get_forecast_validates_coordinates_witness :
  (~ within (-90) 90 f_91
   /\ get_forecast (Json := unit) (fun _ _ _ => Return "") f_91 f_m71_06
      = Return "Error: Invalid latitude or longitude values provided.")
  /\ (within (-90) 90 f_42_36 /\ within (-180) 180 f_m71_06
      /\ exists k,
           get_forecast (Json := unit) (fun _ _ _ => Return "") f_42_36 f_m71_06
           = Request "https://api.weather.gov/points/42.3600,-71.0600" k).
Proof.
  assert (Hout : ~ within (-90) 90 f_91).
  { intros H. apply in_range_within in H. vm_compute in H. discriminate. }
  assert (Hlat : within (-90) 90 f_42_36) by (now apply in_range_within).
  assert (Hlon : within (-180) 180 f_m71_06) by (now apply in_range_within).
  split.
  - split; [exact Hout|].
    apply (proj1 (get_forecast_validates_coordinates (Json := unit)
                    (fun _ _ _ => Return "") f_91 f_m71_06)).
    now left.
  - split; [exact Hlat|]. split; [exact Hlon|].
    destruct (proj2 (get_forecast_validates_coordinates (Json := unit)
                       (fun _ _ _ => Return "") f_42_36 f_m71_06) Hlat Hlon)
      as (lat_str & lon_str & k & E & -> & -> & _).
    exists k. exact E.
Defined.

End WeatherSpec.

(** ** The client: what the runs never do, and how the calls compose *)

Module ClientMore.
Import Py PyFacts Client Shell ClientSpec.

Section Runs.
Context {Args : Type} (str_args : Args -> string) {Schema : Type}.
Implicit Types (w : @world Args Schema) (bs post : list (@block Args))
  (query : string) (ts : list string).

Lemma listings_app (tr1 tr2 : list (@event Args Schema)) :
  listings (tr1 ++ tr2) = listings tr1 + listings tr2.
Proof. unfold listings. now rewrite flat_map_app, length_app. Qed.

Lemma create_tools_app (tr1 tr2 : list (@event Args Schema)) :
  create_tools (tr1 ++ tr2) = create_tools tr1 ++ create_tools tr2.
Proof. apply flat_map_app. Qed.

(** A run without a session stops at once. *)
Lemma run_not_connected query w :
  session w = false ->
  process_query_locals str_args query w
  = (inl (Exn "AttributeError"
              "'NoneType' object has no attribute 'list_tools'"), w).
Proof.
  intros Hs. unfold process_query_locals, mbind, M_bind.
  rewrite bind_list_tools. now rewrite Hs.
Qed.

(** A run whose first inference call raises. *)
Lemma run_completion_fails query w e :
  session w = true -> (next (inl stop) (completions w)).1 = inl e ->
  process_query_locals str_args query w
  = (inl e,
     World true (catalog w) (next (inl stop) (completions w)).2 (outcomes w)
       (trace w ++ [EvListTools;
                    EvCreate [user_says query] (tool_params (catalog w))])).
Proof.
  intros Hs Hc. unfold process_query_locals, mbind, M_bind.
  rewrite bind_list_tools, Hs.
  unfold bind at 1. unfold create. simpl.
  destruct w as [s cat comps outs tr]; simpl in *; subst s.
  destruct (next (inl stop) comps) as [r cs]; simpl in *; subst r.
  unfold set_completions, log. simpl. now rewrite <- !app_assoc.
Qed.

(** The four ways a run can go. *)
Lemma run_cases query w :
  session w = false
  \/ (session w = true /\ exists e, (next (inl stop) (completions w)).1 = inl e)
  \/ (session w = true
      /\ exists bs cs, completions w = inr bs :: cs /\ tool_uses bs = [])
  \/ (session w = true
      /\ exists ts id name input post cs,
           completions w
           = inr (map TextBlock ts ++ ToolUseBlock id name input :: post) :: cs).
Proof.
  destruct (session w) eqn:Hs; [right | now left].
  destruct (completions w) as [|[e|bs] cs] eqn:Hc.
  - left. split; [reflexivity|]. now exists stop.
  - left. split; [reflexivity|]. now exists e.
  - right. destruct (blocks_split bs) as [Hb|(ts & id & name & input & post & ->)].
    + left. split; [reflexivity|]. now exists bs, cs.
    + right. split; [reflexivity|]. now exists ts, id, name, input, post, cs.
Qed.

(** X1. Whatever the collaborators answer, one run of [process_query]
    lists the tools at most once, asks for at most two completions and
    calls at most one tool. *)
Theorem process_query_bounded query w :
  let tr' := trace (process_query_locals str_args query w).2 in
  listings tr' <= listings (trace w) + 1
  /\ length (creates tr') <= length (creates (trace w)) + 2
  /\ length (calls tr') <= length (calls (trace w)) + 1.
Proof.
  cbv zeta.
  destruct (run_cases query w)
    as [Hs|[[Hs [e He]]|[[Hs (bs & cs & Hc & Hb)]
                        |[Hs (ts & id & name & input & post & cs & Hc)]]]].
  - rewrite (run_not_connected query w Hs). simpl. lia.
  - rewrite (run_completion_fails query w e Hs He). simpl.
    rewrite listings_app, creates_app, calls_app, !length_app. unfold listings. simpl. lia.
  - rewrite (run_no_tool str_args query w bs cs Hs Hc Hb). simpl.
    rewrite listings_app, creates_app, calls_app, !length_app. unfold listings. simpl. lia.
  - rewrite (run_tool str_args query w ts id name input post cs Hs Hc).
    destruct (next (Raises stop) (outcomes w)).1 as [e0|r0];
      [destruct (is_exception e0)|];
      try destruct (next (inl stop) cs).1 as [e|bs2]; simpl;
      rewrite ?listings_app, ?creates_app, ?calls_app, ?length_app;
      unfold listings; simpl; lia.
Qed.

(** X2. Without a session [process_query] raises AttributeError before
    anything leaves the process: no listing, no inference call, no tool
    call. *)
Theorem process_query_needs_session query w :
  session w = false ->
  process_query str_args query w
  = (inl (Exn "AttributeError"
              "'NoneType' object has no attribute 'list_tools'"), w).
Proof.
  intros Hs. rewrite process_query_joins.
  now rewrite (run_not_connected query w Hs).
Qed.

(** X3. An exception of an inference call ends the run with that
    exception. When it is the first call, no tool has been called; when it
    is the call after a tool call (one that returned, or raised an
    [Exception]), the tool has been called once and its result is lost
    with the conversation. When the tool call raises an exception that is
    no [Exception], that one ends the run and the second inference call is
    not made. *)
Theorem process_query_completion_failure query w e :
  session w = true ->
  (forall cs, completions w = inl e :: cs ->
     (process_query str_args query w).1 = inl e
     /\ calls (trace (process_query str_args query w).2) = calls (trace w)
     /\ length (creates (trace (process_query str_args query w).2))
        = S (length (creates (trace w))))
  /\ (forall ts id name input post cs,
        completions w
        = inr (map TextBlock ts ++ ToolUseBlock id name input :: post)
            :: inl e :: cs ->
        caught (next (Raises stop) (outcomes w)).1 = true ->
        (process_query str_args query w).1 = inl e
        /\ calls (trace (process_query str_args query w).2)
           = calls (trace w) ++ [(name, input)]
        /\ length (creates (trace (process_query str_args query w).2))
           = S (S (length (creates (trace w)))))
  /\ (forall ts id name input post cs e',
        completions w
        = inr (map TextBlock ts ++ ToolUseBlock id name input :: post) :: cs ->
        (next (Raises stop) (outcomes w)).1 = Raises e' ->
        is_exception e' = false ->
        (process_query str_args query w).1 = inl e'
        /\ calls (trace (process_query str_args query w).2)
           = calls (trace w) ++ [(name, input)]
        /\ length (creates (trace (process_query str_args query w).2))
           = S (length (creates (trace w)))
        /\ completions (process_query str_args query w).2 = cs).
Proof.
  intros Hs. split; [|split].
  - intros cs Hc. rewrite process_query_joins.
    rewrite (run_completion_fails query w e Hs) by now rewrite Hc.
    simpl. rewrite calls_app, creates_app, length_app. simpl.
    rewrite app_nil_r. repeat split. lia.
  - intros ts id name input post cs Hc Hk. rewrite process_query_joins.
    rewrite (run_tool_caught str_args query w ts id name input post _ Hs Hc Hk).
    simpl. rewrite calls_app, creates_app, length_app. simpl.
    repeat split. lia.
  - intros ts id name input post cs e' Hc Ho He. rewrite process_query_joins.
    rewrite (run_tool_uncaught str_args query w ts id name input post cs e'
               Hs Hc Ho He).
    simpl. rewrite calls_app, creates_app, length_app. simpl.
    repeat split. lia.
Qed.

(** X4. After a tool call that returns, the text [process_query] gives
    back is made of the texts before the tool-use block and the line that
    announces the call, and of nothing else: not the tool's result, not the
    blocks after the tool-use block, not the second completion result. *)
Theorem process_query_answer_after_tool
    query w ts id name input post r os bs2 cs :
  session w = true ->
  completions w
  = inr (map TextBlock ts ++ ToolUseBlock id name input :: post)
      :: inr bs2 :: cs ->
  outcomes w = Returns r :: os ->
  (process_query str_args query w).1
  = inr (join newline (ts ++ [calling_line str_args name input])).
Proof.
  intros Hs Hc Ho. rewrite process_query_joins.
  now rewrite (run_tool str_args query w ts id name input post _ Hs Hc), Ho.
Qed.

(** X5. The [isError] flag of a tool result is never read: a result that
    reports an error without raising is handled like a successful one,
    with the same answer, the same conversation and the same calls. *)
Theorem process_query_ignores_isError query w content flag os :
  let w1 := set_outcomes (Returns (Some (CallResult content flag)) :: os) w in
  let w2 := set_outcomes (Returns (Some (CallResult content false)) :: os) w in
  (process_query str_args query w1).1 = (process_query str_args query w2).1
  /\ transcript (process_query_locals str_args query w1).1
     = transcript (process_query_locals str_args query w2).1
  /\ trace (process_query str_args query w1).2
     = trace (process_query str_args query w2).2.
Proof.
  intros w1 w2. rewrite !process_query_joins.
  assert (E : (process_query_locals str_args query w1).1
              = (process_query_locals str_args query w2).1
              /\ trace (process_query_locals str_args query w1).2
                 = trace (process_query_locals str_args query w2).2).
  { subst w1 w2. destruct w as [s cat comps outs tr]. unfold set_outcomes. simpl.
    set (o1 := Returns (Some (CallResult content flag))).
    set (o2 := Returns (Some (CallResult content false))).
    destruct s.
    - destruct comps as [|[e|bs] cs].
      + rewrite (run_completion_fails query (World true cat [] (o1 :: os) tr)
                   stop eq_refl eq_refl).
        now rewrite (run_completion_fails query (World true cat [] (o2 :: os) tr)
                       stop eq_refl eq_refl).
      + rewrite (run_completion_fails query
                   (World true cat (inl e :: cs) (o1 :: os) tr) e eq_refl eq_refl).
        now rewrite (run_completion_fails query
                       (World true cat (inl e :: cs) (o2 :: os) tr) e
                       eq_refl eq_refl).
      + destruct (blocks_split bs) as [Hb|(ts & id & name & input & post & ->)].
        * rewrite (run_no_tool str_args query
                     (World true cat (inr bs :: cs) (o1 :: os) tr) bs cs
                     eq_refl eq_refl Hb).
          now rewrite (run_no_tool str_args query
                         (World true cat (inr bs :: cs) (o2 :: os) tr) bs cs
                         eq_refl eq_refl Hb).
        * rewrite (run_tool str_args query
                     (World true cat _ (o1 :: os) tr) ts id name input post cs
                     eq_refl eq_refl).
          rewrite (run_tool str_args query
                     (World true cat _ (o2 :: os) tr) ts id name input post cs
                     eq_refl eq_refl).
          simpl. now destruct (next (inl stop) cs).1 as [e|bs2].
    - now rewrite !run_not_connected by reflexivity. }
  destruct E as [E1 E2].
  destruct (process_query_locals str_args query w1) as [[e1|l1] v1],
           (process_query_locals str_args query w2) as [[e2|l2] v2];
    simpl in *; try discriminate; injection E1 as ->; now repeat split.
Qed.

(** X6. In a run the tools are listed once, at the start, and every
    inference call of the run is given that one catalogue. *)
Theorem process_query_lists_tools_once query w :
  session w = true ->
  let tr' := trace (process_query_locals str_args query w).2 in
  listings tr' = listings (trace w) + 1
  /\ exists n,
       create_tools tr'
       = create_tools (trace w) ++ replicate n (tool_params (catalog w)).
Proof.
  intros Hs. cbv zeta.
  destruct (run_cases query w)
    as [Hs'|[[_ [e He]]|[[_ (bs & cs & Hc & Hb)]
                        |[_ (ts & id & name & input & post & cs & Hc)]]]].
  - congruence.
  - rewrite (run_completion_fails query w e Hs He). simpl.
    rewrite listings_app, create_tools_app. split; [reflexivity|]. now exists 1.
  - rewrite (run_no_tool str_args query w bs cs Hs Hc Hb). simpl.
    rewrite listings_app, create_tools_app. split; [reflexivity|]. now exists 1.
  - rewrite (run_tool str_args query w ts id name input post cs Hs Hc).
    destruct (next (Raises stop) (outcomes w)).1 as [e0|r0];
      [destruct (is_exception e0)|];
      try destruct (next (inl stop) cs).1 as [e|bs2]; simpl;
      rewrite ?listings_app, ?create_tools_app; simpl;
      (split; [unfold listings; simpl; lia|]);
      rewrite ?app_nil_r, <- ?app_assoc; simpl;
      first [ now exists 2 | now exists 1 ].
Qed.

(** The run of [connect_to_server] on a good path. *)
Lemma connect_to_server_succeeds_aux (path stem : string) w :
  (path = stem +:+ ".py" ->
   connect_to_server path w
   = (inr tt,
      World true (catalog w) (completions w) (outcomes w)
        (trace w ++ [EvStdioClient (ServerParams "python" [path]);
                     EvInitialize; EvListTools;
                     EvPrintTools (map tool_name (catalog w))])))
  /\ (path = stem +:+ ".js" ->
      connect_to_server path w
      = (inr tt,
         World true (catalog w) (completions w) (outcomes w)
           (trace w ++ [EvStdioClient (ServerParams "node" [path]);
                        EvInitialize; EvListTools;
                        EvPrintTools (map tool_name (catalog w))]))).
Proof.
  split; intros ->; unfold connect_to_server.
  - rewrite (proj2 (endswith_iff (stem +:+ ".py") ".py")) by eauto. simpl.
    unfold mbind, M_bind, bind, emit, list_tools, log, set_session; simpl.
    now rewrite <- !app_assoc.
  - rewrite (endswith_other stem ".js" ".py") by (reflexivity || discriminate).
    rewrite (proj2 (endswith_iff (stem +:+ ".js") ".js")) by eauto. simpl.
    unfold mbind, M_bind, bind, emit, list_tools, log, set_session; simpl.
    now rewrite <- !app_assoc.
Qed.

(** X7. With a path that ends in ".py" or ".js", [connect_to_server]
    returns normally with the session set, having spawned the server,
    initialised the session, listed the tools and printed their names, in
    this order, and nothing else. *)
Theorem connect_to_server_succeeds (path stem : string) w :
  (path = stem +:+ ".py" ->
   connect_to_server path w
   = (inr tt,
      World true (catalog w) (completions w) (outcomes w)
        (trace w ++ [EvStdioClient (ServerParams "python" [path]);
                     EvInitialize; EvListTools;
                     EvPrintTools (map tool_name (catalog w))])))
  /\ (path = stem +:+ ".js" ->
      connect_to_server path w
      = (inr tt,
         World true (catalog w) (completions w) (outcomes w)
           (trace w ++ [EvStdioClient (ServerParams "node" [path]);
                        EvInitialize; EvListTools;
                        EvPrintTools (map tool_name (catalog w))]))).
Proof. exact (connect_to_server_succeeds_aux path stem w). Qed.

(** X8. A client that has connected can answer: from any state, also
    without a session, [connect_to_server] with a good path followed by
    [process_query] on a completion result without tool use returns the
    joined texts. *)
Theorem connect_then_process_query (path stem query : string) w bs cs :
  path = stem +:+ ".py" \/ path = stem +:+ ".js" ->
  completions w = inr bs :: cs -> tool_uses bs = [] ->
  ((connect_to_server path ≫= fun _ => process_query str_args query) w).1
  = inr (join newline (texts bs)).
Proof.
  intros Hp Hc Hb. unfold mbind, M_bind, bind.
  assert (E : exists tr, connect_to_server path w
                         = (inr tt, World true (catalog w) (completions w)
                                      (outcomes w) tr)).
  { destruct Hp as [Hp|Hp]; eexists.
    - exact (proj1 (connect_to_server_succeeds_aux path stem w) Hp).
    - exact (proj2 (connect_to_server_succeeds_aux path stem w) Hp). }
  destruct E as [tr ->].
  rewrite process_query_joins.
  now rewrite (run_no_tool str_args query
                 (World true (catalog w) (completions w) (outcomes w) tr)
                 bs cs eq_refl Hc Hb).
Qed.

End Runs.

(** *** The properties at concrete runs *)

Lemma process_query_needs_session_witness :
  session (no_session_world) = false
  /\ process_query (Schema := unit) str_mapping "hi" no_session_world
     = (inl (Exn "AttributeError"
                 "'NoneType' object has no attribute 'list_tools'"),
        no_session_world).
Proof.
  split; [reflexivity|].
  exact (process_query_needs_session str_mapping "hi" no_session_world eq_refl).
Defined.

Lemma process_query_completion_failure_witness :
  session failing_world = true
  /\ ((process_query str_mapping "hi" failing_world).1 = inl overloaded
      /\ calls (trace (process_query str_mapping "hi" failing_world).2) = [])
  /\ (caught (next (Raises stop) (outcomes (failing_second_world sunny))).1
      = true
      /\ (process_query str_mapping "hi" (failing_second_world sunny)).1
         = inl overloaded
      /\ calls (trace (process_query str_mapping "hi"
                         (failing_second_world sunny)).2)
         = [("get_forecast", boston_args)])
  /\ (is_exception cancelled = false
      /\ (process_query str_mapping "hi"
            (failing_second_world (Raises cancelled))).1
         = inl cancelled
      /\ length (creates (trace (process_query str_mapping "hi"
                                   (failing_second_world (Raises cancelled))).2))
         = 1).
Proof.
  split; [reflexivity|]. split; [|split].
  - destruct (proj1 (process_query_completion_failure str_mapping "hi"
                       failing_world overloaded eq_refl) _ eq_refl)
      as (H1 & H2 & _).
    split; [exact H1 | exact H2].
  - split; [reflexivity|].
    destruct (proj1 (proj2 (process_query_completion_failure str_mapping "hi"
                              (failing_second_world sunny) overloaded eq_refl))
                [] "t1" "get_forecast" boston_args [] [] eq_refl eq_refl)
      as (H1 & H2 & _).
    split; [exact H1 | exact H2].
  - split; [reflexivity|].
    destruct (proj2 (proj2 (process_query_completion_failure str_mapping "hi"
                              (failing_second_world (Raises cancelled))
                              overloaded eq_refl))
                [] "t1" "get_forecast" boston_args [] _ cancelled
                eq_refl eq_refl eq_refl)
      as (H1 & _ & H2 & _).
    split; [exact H1 | exact H2].
Defined.

Lemma process_query_answer_after_tool_witness :
  session (boston_world sunny) = true
  /\ (process_query str_mapping "forecast for Boston" (boston_world sunny)).1
     = inr "[Calling tool get_forecast with args {'lat': 42.36, 'lon': -71.06}]".
Proof.
  split; [reflexivity|].
  exact (process_query_answer_after_tool str_mapping "forecast for Boston"
           (boston_world sunny) [] "t1" "get_forecast" boston_args [] _ [] _ []
           eq_refl eq_refl eq_refl).
Defined.

Lemma process_query_lists_tools_once_witness :
  session (boston_world sunny) = true
  /\ listings (trace (process_query_locals str_mapping "forecast for Boston"
                        (boston_world sunny)).2) = 1
  /\ exists n,
       create_tools (trace (process_query_locals str_mapping
                              "forecast for Boston" (boston_world sunny)).2)
       = replicate n (tool_params (catalog (boston_world sunny))).
Proof.
  split; [reflexivity|].
  exact (process_query_lists_tools_once str_mapping "forecast for Boston"
           (boston_world sunny) eq_refl).
Defined.

Lemma connect_to_server_succeeds_witness :
  (connect_to_server "weather.py" no_session_world).1 = inr tt
  /\ trace (connect_to_server "weather.py" no_session_world).2
     = [EvStdioClient (ServerParams "python" ["weather.py"]);
        EvInitialize; EvListTools; EvPrintTools []]
  /\ session (connect_to_server "weather.py" no_session_world).2 = true.
Proof.
  rewrite (proj1 (connect_to_server_succeeds "weather.py" "weather"
                    no_session_world) eq_refl).
  now repeat split.
Defined.

Lemma connect_then_process_query_witness :
  session two_texts_offline = false
  /\ ((connect_to_server "index.js"
         ≫= fun _ => process_query str_mapping "hi") two_texts_offline).1
     = inr ("Hello" +:+ newline +:+ "world").
Proof.
  split; [reflexivity|].
  exact (connect_then_process_query str_mapping "index.js" "index" "hi"
           two_texts_offline _ _ (or_intror eq_refl) eq_refl eq_refl).
Defined.

End ClientMore.

(** ** The shell: chat_loop, cleanup and main *)

Module ShellSpec.
Import Py PyFacts Client Shell ClientSpec ClientMore.

Section Loop.
Context {Args : Type} (str_args : Args -> string) {Schema : Type}.
Context (strip lower : string -> string).
Implicit Types (sh : @shell Args Schema) (w : @world Args Schema).

Abbreviation chat_iteration := (chat_iteration str_args strip lower).
Abbreviation chat_iterations := (chat_iterations str_args strip lower).
Abbreviation chat_loop := (chat_loop str_args strip lower).
Abbreviation main := (main str_args strip lower).
Abbreviation queries_until_quit := (queries_until_quit strip lower).
Abbreviation lines_after_quit := (lines_after_quit strip lower).
Abbreviation all_caught := (all_caught str_args).

(** The four things one pass of the loop can do. *)
Lemma chat_iteration_quit w line rest out n :
  lower (strip line) = "quit" ->
  chat_iteration (MkShell w (line :: rest) out n)
  = (inr true, MkShell w rest (out ++ [prompt]) n).
Proof.
  intros H. unfold Shell.chat_iteration, input. simpl. now rewrite H.
Qed.

Lemma chat_iteration_query w line rest out n :
  lower (strip line) <> "quit" ->
  escapes (process_query str_args (strip line) w).1 = false ->
  chat_iteration (MkShell w (line :: rest) out n)
  = (inr false,
     MkShell (process_query str_args (strip line) w).2 rest
       (out ++ query_output str_args (strip line) w) n).
Proof.
  intros H Hc. unfold Shell.chat_iteration, input, query_output. simpl.
  apply String.eqb_neq in H. rewrite H.
  destruct (process_query str_args (strip line) w) as [[e|response] w'];
    simpl in *.
  - unfold except_print. apply negb_false_iff in Hc. rewrite Hc.
    unfold print, with_world; simpl; now rewrite <- app_assoc.
  - unfold print, with_world; simpl; now rewrite <- app_assoc.
Qed.

Lemma chat_iteration_escape w line rest out n e :
  lower (strip line) <> "quit" ->
  (process_query str_args (strip line) w).1 = inl e ->
  is_exception e = false ->
  chat_iteration (MkShell w (line :: rest) out n)
  = (inl e,
     MkShell (process_query str_args (strip line) w).2 rest
       (out ++ [prompt]) n).
Proof.
  intros H Hr He. unfold Shell.chat_iteration, input. simpl.
  apply String.eqb_neq in H. rewrite H.
  destruct (process_query str_args (strip line) w) as [[e'|response] w'];
    simpl in *; [|discriminate].
  injection Hr as ->. unfold except_print. now rewrite He.
Qed.

Lemma chat_iteration_eof w out n :
  chat_iteration (MkShell w [] out n)
  = (inr false,
     MkShell w []
       (out ++ [prompt;
                Printed (newline +:+ "Error: " +:+ "EOF when reading a line")])
       n).
Proof.
  unfold Shell.chat_iteration, input, except_print, print. simpl.
  now rewrite <- app_assoc.
Qed.

Lemma chat_iterations_until_quit fuel w lines rest out n :
  lines_after_quit lines = Some rest ->
  all_caught (queries_until_quit lines) w = true ->
  length (queries_until_quit lines) < fuel ->
  chat_iterations fuel (MkShell w lines out n)
  = Some (inr tt,
          MkShell (after_queries str_args (queries_until_quit lines) w) rest
            (out ++ queries_output str_args (queries_until_quit lines) w
                 ++ [prompt]) n).
Proof.
  revert fuel w out.
  induction lines as [|line lines IH]; intros fuel w out Hq Hk Hf.
  - discriminate.
  - destruct fuel as [|fuel]; [lia|]. simpl in *.
    destruct (String.eqb_spec (lower (strip line)) "quit") as [E|E].
    + injection Hq as ->. rewrite (chat_iteration_quit _ _ _ _ _ E). reflexivity.
    + simpl in Hk, Hf. apply andb_true_iff in Hk as [Hk1 Hk2].
      apply negb_true_iff in Hk1.
      rewrite (chat_iteration_query _ _ _ _ _ E Hk1).
      rewrite IH by (assumption || lia).
      unfold after_queries. simpl. now rewrite <- !app_assoc.
Qed.

Lemma chat_iterations_no_quit fuel w lines out n :
  lines_after_quit lines = None ->
  all_caught (queries_until_quit lines) w = true ->
  chat_iterations fuel (MkShell w lines out n) = None.
Proof.
  revert w lines out. induction fuel as [|fuel IH]; intros w lines out Hq Hk.
  - reflexivity.
  - simpl. destruct lines as [|line lines].
    + rewrite chat_iteration_eof. now apply IH.
    + simpl in Hq, Hk.
      destruct (String.eqb_spec (lower (strip line)) "quit") as [E|E];
        [discriminate|].
      simpl in Hk. apply andb_true_iff in Hk as [Hk1 Hk2].
      apply negb_true_iff in Hk1.
      rewrite (chat_iteration_query _ _ _ _ _ E Hk1). now apply IH.
Qed.

Lemma chat_iterations_not_left fuel w lines out n sh' :
  lines_after_quit lines = None ->
  chat_iterations fuel (MkShell w lines out n) <> Some (inr tt, sh').
Proof.
  revert w lines out. induction fuel as [|fuel IH]; intros w lines out Hq.
  - discriminate.
  - simpl. destruct lines as [|line lines].
    + rewrite chat_iteration_eof. now apply IH.
    + simpl in Hq.
      destruct (String.eqb_spec (lower (strip line)) "quit") as [E|E];
        [discriminate|].
      destruct (escapes (process_query str_args (strip line) w).1) eqn:Hk.
      * destruct (process_query str_args (strip line) w).1 as [e|r] eqn:Hr;
          simpl in Hk; [|discriminate].
        apply negb_true_iff in Hk.
        rewrite (chat_iteration_escape _ _ _ _ _ e E Hr Hk). discriminate.
      * rewrite (chat_iteration_query _ _ _ _ _ E Hk). now apply IH.
Qed.


(** X10. A query on which [process_query] raises an [Exception] does not
    end the loop: the pass prints a blank line and "Error: " with the
    exception's text, and the loop goes on with the next line and with the
    client as the failed run left it. An exception that is no [Exception]
    is not caught: it leaves the loop, nothing printed after the prompt. *)
Theorem chat_loop_survives_failure fuel w line rest out n e :
  lower (strip line) <> "quit" ->
  (process_query str_args (strip line) w).1 = inl e ->
  (is_exception e = true ->
   chat_iterations (S fuel) (MkShell w (line :: rest) out n)
   = chat_iterations fuel
       (MkShell (process_query str_args (strip line) w).2 rest
          (out ++ [prompt; Printed (newline +:+ "Error: " +:+ exn_str e)]) n))
  /\ (is_exception e = false ->
      chat_iterations (S fuel) (MkShell w (line :: rest) out n)
      = Some (inl e,
              MkShell (process_query str_args (strip line) w).2 rest
                (out ++ [prompt]) n)).
Proof.
  intros Hq He. split; intros Hk.
  - simpl. rewrite (chat_iteration_query _ _ _ _ _ Hq).
    + unfold query_output. now rewrite He.
    + rewrite He. simpl. now rewrite Hk.
  - simpl. now rewrite (chat_iteration_escape _ _ _ _ _ e Hq He Hk).
Qed.


Lemma connect_to_server_rejects (path : string) w :
  (forall stem, path <> stem +:+ ".py") ->
  (forall stem, path <> stem +:+ ".js") ->
  connect_to_server path w
  = (inl (Exn "ValueError" "Server script must be a .py or .js file"), w).
Proof.
  intros Hpy Hjs. unfold connect_to_server.
  destruct (endswith path ".py") eqn:E1.
  { apply endswith_iff in E1 as [p E]. now destruct (Hpy p). }
  destruct (endswith path ".js") eqn:E2.
  { apply endswith_iff in E2 as [p E]. now destruct (Hjs p). }
  reflexivity.
Qed.

(** The loop leaves the exit stack alone. *)
Lemma chat_iteration_closed sh : closed (chat_iteration sh).2 = closed sh.
Proof.
  destruct sh as [w lines out n].
  unfold Shell.chat_iteration, input, except_print. simpl.
  destruct lines as [|line lines]; simpl.
  - reflexivity.
  - destruct (String.eqb (lower (strip line)) "quit"); [reflexivity|].
    destruct (process_query str_args (strip line) w) as [[e|response] w'];
      [destruct (is_exception e)|]; reflexivity.
Qed.

Lemma chat_iterations_closed fuel sh r sh' :
  chat_iterations fuel sh = Some (r, sh') -> closed sh' = closed sh.
Proof.
  revert sh. induction fuel as [|fuel IH]; intros sh H; [discriminate|].
  simpl in H. pose proof (chat_iteration_closed sh) as Hc.
  destruct (chat_iteration sh) as [[e|[|]] sh1]; simpl in Hc.
  - injection H as _ <-. exact Hc.
  - injection H as _ <-. exact Hc.
  - apply IH in H. congruence.
Qed.

(** X12. [main] closes the exit stack exactly once on every path on which
    it made a client, whether [connect_to_server] raised or the loop was
    left by quit, and not at all when it stopped at the usage message. *)
Theorem main_cleans_up_once fuel argv sh r sh' :
  main fuel argv sh = Some (r, sh') ->
  closed sh'
  = closed sh + (if (length argv <? 2)%nat then 0 else 1).
Proof.
  unfold Shell.main. destruct (length argv <? 2)%nat.
  - intros H. injection H as _ <-. simpl. lia.
  - destruct (connect_to_server (nth 1 argv "") (sh_world (new_client sh)))
      as [[e|[]] w'].
    + intros H. injection H as _ <-. simpl. lia.
    + destruct (Shell.chat_loop str_args strip lower fuel
                  (with_world w' (new_client sh))) as [[r1 sh1]|] eqn:E;
        [|discriminate].
      intros H. injection H as _ <-. unfold Shell.chat_loop in E.
      apply chat_iterations_closed in E. simpl in *. lia.
Qed.

(** X13. Without a script path [main] prints the usage line and does
    nothing else. With a path that ends in neither ".py" nor ".js" the
    ValueError of [connect_to_server] leaves [main] after the cleanup:
    nothing was spawned, nothing was read and nothing was printed. *)
Theorem main_rejects_bad_arguments fuel argv sh :
  ((length argv < 2)%nat ->
   main fuel argv sh
   = Some (inr tt,
           MkShell (sh_world sh) (stdin sh)
             (stdout sh
                ++ [Printed "Usage: python client.py <path_to_server_script>"])
             (closed sh)))
  /\ ((2 <= length argv)%nat ->
      (forall stem, nth 1 argv "" <> stem +:+ ".py") ->
      (forall stem, nth 1 argv "" <> stem +:+ ".js") ->
      exists sh',
        main fuel argv sh
        = Some (inl (Exn "ValueError" "Server script must be a .py or .js file"),
                sh')
        /\ trace (sh_world sh') = trace (sh_world sh)
        /\ stdin sh' = stdin sh /\ stdout sh' = stdout sh
        /\ closed sh' = S (closed sh)).
Proof.
  unfold Shell.main. split.
  - intros H. apply Nat.ltb_lt in H. now rewrite H.
  - intros H Hpy Hjs.
    assert (E : (length argv <? 2)%nat = false) by (apply Nat.ltb_ge; lia).
    rewrite E.
    rewrite (connect_to_server_rejects (nth 1 argv "")
               (sh_world (new_client sh)) Hpy Hjs).
    eexists. split; [reflexivity|]. now destruct sh.
Qed.


End Loop.

(** *** The properties at concrete sessions *)


Lemma chat_loop_survives_failure_witness :
  ascii_lower (ascii_strip "hi") <> "quit"
  /\ is_exception overloaded = true
  /\ is_exception cancelled = false
  /\ chat_iterations str_mapping ascii_strip ascii_lower 3
       (MkShell failing_world ["hi"; "quit"] [] 0)
     = Some (inr tt,
             MkShell (process_query str_mapping "hi" failing_world).2 []
               [prompt; Printed (newline +:+ "Error: overloaded"); prompt] 0)
  /\ chat_iterations str_mapping ascii_strip ascii_lower 3
       (MkShell (boston_world (Raises cancelled)) ["hi"; "quit"] [] 0)
     = Some (inl cancelled,
             MkShell (process_query str_mapping "hi"
                        (boston_world (Raises cancelled))).2
               ["quit"] [prompt] 0).
Proof.
  assert (H : ascii_lower (ascii_strip "hi") <> "quit") by discriminate.
  split; [exact H|]. split; [reflexivity|]. split; [reflexivity|]. split.
  - rewrite (proj1 (chat_loop_survives_failure str_mapping ascii_strip
                      ascii_lower 2 failing_world "hi" ["quit"] [] 0
                      overloaded H eq_refl) eq_refl).
    reflexivity.
  - exact (proj2 (chat_loop_survives_failure str_mapping ascii_strip
                    ascii_lower 2 (boston_world (Raises cancelled)) "hi"
                    ["quit"] [] 0 cancelled H eq_refl) eq_refl).
Defined.


Lemma main_cleans_up_once_witness :
  (exists r sh',
     main str_mapping ascii_strip ascii_lower 5 ["client.py"; "server.rb"]
       (boston_shell ["quit"]) = Some (r, sh')
     /\ closed sh' = 1)
  /\ (exists sh',
        main str_mapping ascii_strip ascii_lower 5 ["client.py"; "weather.py"]
          (MkShell (boston_world (Raises cancelled)) ["hi"; "quit"] [] 0)
        = Some (inl cancelled, sh')
        /\ closed sh' = 1).
Proof.
  split.
  - eexists _, _. split; [reflexivity|].
    exact (main_cleans_up_once str_mapping ascii_strip ascii_lower 5
             ["client.py"; "server.rb"] (boston_shell ["quit"]) _ _ eq_refl).
  - eexists. split; [reflexivity|].
    exact (main_cleans_up_once str_mapping ascii_strip ascii_lower 5
             ["client.py"; "weather.py"]
             (MkShell (boston_world (Raises cancelled)) ["hi"; "quit"] [] 0)
             _ _ eq_refl).
Defined.

Lemma main_rejects_bad_arguments_witness :
  main str_mapping ascii_strip ascii_lower 5 ["client.py"] (boston_shell ["quit"])
  = Some (inr tt,
          MkShell (boston_world sunny) ["quit"]
            [Printed "Usage: python client.py <path_to_server_script>"] 0)
  /\ exists sh',
       main str_mapping ascii_strip ascii_lower 5 ["client.py"; "server.rb"]
         (boston_shell ["quit"])
       = Some (inl (Exn "ValueError" "Server script must be a .py or .js file"),
               sh')
       /\ stdin sh' = ["quit"] /\ stdout sh' = [] /\ closed sh' = 1.
Proof.
  split.
  - apply (proj1 (main_rejects_bad_arguments str_mapping ascii_strip ascii_lower
                    5 ["client.py"] (boston_shell ["quit"]))).
    simpl. lia.
  - destruct (proj2 (main_rejects_bad_arguments str_mapping ascii_strip
                       ascii_lower 5 ["client.py"; "server.rb"]
                       (boston_shell ["quit"])))
      as (sh' & Hm & _ & H1 & H2 & H3).
    + simpl. lia.
    + intros stem E.
      assert (H : endswith "server.rb" ".py" = true)
        by (apply endswith_iff; eauto).
      vm_compute in H. discriminate.
    + intros stem E.
      assert (H : endswith "server.rb" ".js" = true)
        by (apply endswith_iff; eauto).
      vm_compute in H. discriminate.
    + exists sh'. now repeat split.
Defined.


End ShellSpec.

(** ** The weather server: requests, alerts and the whole forecast tool *)

Module NwsSpec.
Import Py PyFacts Weather WeatherSpec Nws.
Import Shell (ascii_strip).
Local Open Scope Z_scope.

(** *** Substrings *)

Lemma prefix_iff (p s : string) :
  String.prefix p s = true <-> exists rest, s = p +:+ rest.
Proof.
  revert s. induction p as [|c p IH]; intros s.
  - split; [intros _; now exists s | intros _; now destruct s].
  - destruct s as [|d s]; simpl.
    + split; [discriminate | intros [rest E]; discriminate].
    + destruct (ascii_dec c d) as [->|N].
      * rewrite IH. split; intros [rest E]; exists rest.
        -- now rewrite append_cons, <- E.
        -- rewrite append_cons in E. now injection E.
      * split; [discriminate|]. intros [rest E].
        rewrite append_cons in E. injection E as E _. now destruct N.
Qed.

Lemma contains_unfold (needle hay : string) :
  contains needle hay
  = String.prefix needle hay
    || match hay with
       | EmptyString => false
       | String _ hay' => contains needle hay'
       end.
Proof. now destruct hay. Qed.

(** [contains] holds exactly when the needle occurs somewhere. *)
Lemma contains_iff (needle hay : string) :
  contains needle hay = true
  <-> exists before after, hay = before +:+ needle +:+ after.
Proof.
  split.
  - induction hay as [|c hay IH]; rewrite contains_unfold;
      intros H; apply orb_true_iff in H as [H|H].
    + apply prefix_iff in H as [rest E]. now exists "", rest.
    + discriminate.
    + apply prefix_iff in H as [rest E]. now exists "", rest.
    + destruct (IH H) as (before & after & ->).
      exists (String c before), after. now rewrite append_cons.
  - intros (before & after & ->).
    induction before as [|c before IH]; rewrite contains_unfold.
    + rewrite append_nil_l. apply orb_true_iff. left.
      apply prefix_iff. now exists after.
    + rewrite append_cons. apply orb_true_iff. now right.
Qed.

(** *** make_nws_request *)

(** A decoded body counts unless it is [null]. *)
Lemma body_not_null (b : option json) (data : json) :
  decoded b = Some data <-> b = Some data /\ data <> JNull.
Proof.
  unfold decoded. split.
  - destruct b as [[]|]; intros H; try discriminate;
      injection H as H; subst data; split; reflexivity || discriminate.
  - intros [-> H]. destruct data; [now destruct H | reflexivity ..].
Qed.

(** X15. [make_nws_request] gives the decoded body exactly when the GET
    returned, [raise_for_status] did not raise, the content-type header
    mentions "application/geo+json" or "application/ld+json" somewhere
    (parameters such as a charset before or after it do no harm), the
    body decoded and it is not [null]; in every other case, also without
    a content-type header, it gives [None]. *)
Theorem make_nws_request_accepts (f : fetch) (data : json) :
  make_nws_request f = Some data
  <-> exists r,
        f = GetReturns r /\ status_raises r = false /\ body r = Some data
        /\ data <> JNull
        /\ exists ct before after,
             content_type r = Some ct
             /\ (ct = before +:+ "application/geo+json" +:+ after
                 \/ ct = before +:+ "application/ld+json" +:+ after).
Proof.
  unfold make_nws_request. split.
  - destruct f as [|r]; [discriminate|].
    destruct (status_raises r) eqn:Hs; [discriminate|].
    destruct (contains "application/geo+json" (default "" (content_type r)))
      eqn:Hg; cbn [negb andb].
    + intros Hb. apply body_not_null in Hb as [Hb Hn].
      exists r. repeat split; try assumption.
      apply contains_iff in Hg as (before & after & E).
      destruct (content_type r) as [ct|]; simpl in E.
      * exists ct, before, after. split; [reflexivity | now left].
      * destruct before; discriminate.
    + destruct (contains "application/ld+json" (default "" (content_type r)))
        eqn:Hl; cbn [negb andb]; [|discriminate].
      intros Hb. apply body_not_null in Hb as [Hb Hn].
      exists r. repeat split; try assumption.
      apply contains_iff in Hl as (before & after & E).
      destruct (content_type r) as [ct|]; simpl in E.
      * exists ct, before, after. split; [reflexivity | now right].
      * destruct before; discriminate.
  - intros (r & -> & Hs & Hb & Hn & ct & before & after & Hct & [E|E]);
      rewrite Hs, Hct; cbn [default from_option id].
    + rewrite (proj2 (contains_iff "application/geo+json" ct)) by eauto.
      cbn [negb andb]. now apply body_not_null.
    + rewrite (proj2 (contains_iff "application/ld+json" ct)) by eauto.
      rewrite andb_false_r. now apply body_not_null.
Qed.

Section Tools.
Context (strip : string -> string) (isalpha : string -> bool)
  (upper : string -> string) (str_other : json -> string).

Abbreviation format_alert := (format_alert strip str_other).
Abbreviation get_alerts := (get_alerts strip isalpha upper str_other).
Abbreviation format_period := (format_period strip str_other).
Abbreviation after_forecast := (after_forecast strip str_other).
Abbreviation after_points := (after_points strip str_other).
Abbreviation get_forecast_tool := (get_forecast_tool strip str_other).

(** *** get_alerts *)

(** X16. A state code that is not two characters long or not alphabetic is
    turned down with the message about a valid two-letter code, before any
    request. *)
Theorem get_alerts_rejects_bad_code (state : string) net :
  String.length state <> 2%nat \/ isalpha state = false ->
  get_alerts state
  = Done "Error: Please provide a valid two-letter US state code (e.g., CA, NY)."
  /\ asked net (get_alerts state) = [].
Proof.
  intros H. unfold Nws.get_alerts.
  assert (E : negb (String.length state =? 2)%nat || negb (isalpha state) = true).
  { apply orb_true_iff. destruct H as [H|H].
    - left. apply negb_true_iff. now apply Nat.eqb_neq.
    - right. now rewrite H. }
  now rewrite E.
Qed.

(** X17. [get_alerts] never raises and never makes more than one request:
    whatever the network answers, the run ends with a string, and it has
    asked either nothing or the alerts of the upper-cased state code. *)
Theorem get_alerts_one_request_no_exception (state : string) net :
  (exists s, outcome net (get_alerts state) = inr s)
  /\ (asked net (get_alerts state) = []
      \/ asked net (get_alerts state) = [JStr (area_url upper state)]).
Proof.
  unfold Nws.get_alerts, area_url.
  destruct (negb (String.length state =? 2)%nat || negb (isalpha state)).
  - split; [eexists; reflexivity | now left].
  - simpl. split.
    + repeat case_match; eexists; reflexivity.
    + right. f_equal. now repeat case_match.
Qed.

(** X18. With a good state code: when the request fails (or brings
    [null]), the answer says that the alerts could not be fetched; when
    the service sends an empty list of features, the answer says that
    there are no active alerts; when what it sends is neither [null] nor
    an object with a list under "features", the answer says that the
    format is unexpected. *)
Theorem get_alerts_without_alerts (state : string) net :
  String.length state = 2%nat -> isalpha state = true ->
  (net (JStr (area_url upper state)) = None
   \/ net (JStr (area_url upper state)) = Some JNull ->
   outcome net (get_alerts state)
   = inr ("Error: Unable to fetch alerts for '" +:+ upper state
            +:+ "' from the NWS API. Check server logs for details."))
  /\ (forall d,
        net (JStr (area_url upper state)) = Some (JDict d) ->
        d !! "features" = Some (JList []) ->
        outcome net (get_alerts state)
        = inr ("No active weather alerts found for " +:+ upper state +:+ "."))
  /\ (forall data,
        net (JStr (area_url upper state)) = Some data ->
        data <> JNull ->
        (forall d fs, data = JDict d -> d !! "features" <> Some (JList fs)) ->
        outcome net (get_alerts state)
        = inr ("Error: Received unexpected data format when fetching alerts for "
                 +:+ upper state +:+ ".")).
Proof.
  intros Hl Ha. unfold Nws.get_alerts, area_url.
  apply Nat.eqb_eq in Hl. rewrite Hl, Ha. simpl.
  split; [|split].
  - now intros [-> | ->].
  - intros d -> Hd. now rewrite Hd.
  - intros data -> Hn Hd.
    destruct data as [| | | | |l|d]; try reflexivity; [now destruct Hn|].
    destruct (d !! "features") as [[| | | | |fs|]|] eqn:E; try reflexivity.
    now destruct (Hd d fs).
Qed.

Lemma mapM_fails {A B} (f : A -> error + B) (l : list A) (x : A) (e : error) :
  In x l -> f x = inl e -> exists e', mapM f l = inl e'.
Proof.
  intros Hin Hx. induction l as [|y l IH]; [easy|].
  destruct Hin as [->|Hin].
  - exists e. unfold mapM. simpl. now rewrite Hx.
  - destruct (IH Hin) as [e' E]. unfold mapM in *. simpl.
    destruct (f y) as [e1|b]; [now exists e1|].
    exists e'. simpl. now rewrite E.
Qed.

(** An alert that is no object, or whose description is null, cannot be
    formatted. *)
Lemma format_alert_unformattable (feature : json) :
  unformattable feature -> format_alert feature = inl AttributeError.
Proof.
  intros [H|(m & p & -> & Hm & Hp)].
  - destruct feature; try reflexivity. now destruct (H d).
  - unfold Nws.format_alert. simpl. rewrite Hm. simpl. now rewrite Hp.
Qed.

(** X19. One alert that cannot be formatted hides all the others: if any
    feature of the list is not an object, or has a null description, the
    answer is the formatting error and none of the alerts is shown. *)
Theorem get_alerts_one_bad_alert_hides_all (state : string) net d fs bad :
  String.length state = 2%nat -> isalpha state = true ->
  net (JStr (area_url upper state)) = Some (JDict d) ->
  d !! "features" = Some (JList fs) ->
  In bad fs -> unformattable bad ->
  outcome net (get_alerts state)
  = inr ("Error: Could not format the alert data received for "
           +:+ upper state +:+ ".").
Proof.
  intros Hl Ha Hn Hd Hin Hbad. unfold Nws.get_alerts.
  apply Nat.eqb_eq in Hl. rewrite Hl, Ha. simpl.
  fold (area_url upper state). rewrite Hn, Hd.
  destruct fs as [|f fs]; [easy|].
  destruct (mapM_fails format_alert (f :: fs) bad AttributeError Hin
              (format_alert_unformattable bad Hbad)) as [e' E].
  unfold Nws.format_alert in E |- *. now rewrite E.
Qed.

(** X20. For an alert with a string description: an instruction that is
    missing, null or the empty string is shown as "No specific
    instructions provided"; an instruction that is not empty but is
    stripped to nothing is shown as "N/A". A description that is stripped
    to nothing is shown as "N/A". *)
Theorem format_alert_instruction (m p : gmap string json) (d : string) :
  strip "No specific instructions provided"
  = "No specific instructions provided" ->
  m !! "properties" = Some (JDict p) ->
  p !! "description" = Some (JStr d) ->
  let text instruction :=
    inr (alert_text (shown str_other p "event" "Unknown") (shown str_other p "areaDesc" "Unknown")
           (shown str_other p "severity" "Unknown") (shown str_other p "certainty" "Unknown")
           (shown str_other p "urgency" "Unknown") (shown str_other p "headline" "N/A")
           (if truthy (strip d) then strip d else "N/A")
           instruction
           (shown str_other p "effective" "N/A") (shown str_other p "expires" "N/A")) in
  ((p !! "instruction" = None \/ p !! "instruction" = Some JNull
    \/ p !! "instruction" = Some (JStr "")) ->
   format_alert (JDict m) = text "No specific instructions provided")
  /\ (forall i, p !! "instruction" = Some (JStr i) -> i <> "" ->
        format_alert (JDict m)
        = text (if truthy (strip i) then strip i else "N/A")).
Proof.
  intros Hs Hm Hp text. subst text. unfold Nws.format_alert, shown. simpl.
  rewrite Hm. simpl. rewrite Hp. simpl. split.
  - intros [H|[H|H]]; rewrite H; simpl; rewrite ?Hs; reflexivity.
  - intros i Hi Hne. rewrite Hi. simpl.
    assert (T : truthy i = true).
    { unfold truthy. apply negb_true_iff. now apply String.eqb_neq. }
    rewrite T. reflexivity.
Qed.

(** *** get_forecast, whole *)

Lemma in_range_true (latitude longitude : spec_float) :
  within (-90) 90 latitude -> within (-180) 180 longitude ->
  negb (int_le_float (-90) latitude && float_le_int latitude 90
        && (int_le_float (-180) longitude && float_le_int longitude 180))
  = false.
Proof.
  intros H1 H2. apply in_range_within in H1, H2. now rewrite H1, H2.
Qed.

Lemma get_forecast_tool_in_range (latitude longitude : spec_float) :
  within (-90) 90 latitude -> within (-180) 180 longitude ->
  get_forecast_tool latitude longitude
  = Ask (JStr (points_url latitude longitude))
      (after_points (format_f 4 latitude) (format_f 4 longitude)).
Proof.
  intros H1 H2. unfold Nws.get_forecast_tool.
  now rewrite (in_range_true latitude longitude H1 H2).
Qed.

(** The whole tool and the first embedding of [get_forecast] agree as far
    as the latter goes, whatever stands for its remainder: both turn the
    same coordinates down with the same message, both ask for the same
    points URL first, and both give the same message when that request
    fails. *)
Lemma get_forecast_tool_agrees {Json : Type}
    (rest : Json -> string -> string -> @run Json)
    (latitude longitude : spec_float) :
  match get_forecast rest latitude longitude,
        get_forecast_tool latitude longitude with
  | Return s, Done s' => s = s'
  | Request url k, Ask url' k' =>
      url' = JStr url /\ exists s, k None = Return s /\ k' None = Done s
  | _, _ => False
  end.
Proof.
  unfold get_forecast, Nws.get_forecast_tool.
  destruct (negb (int_le_float (-90) latitude && float_le_int latitude 90
                  && (int_le_float (-180) longitude
                      && float_le_int longitude 180))).
  - reflexivity.
  - split; [reflexivity|]. eexists. split; reflexivity.
Qed.

Lemma asked_after_forecast net properties forecast_url grid_id grid_x grid_y
    lat_str lon_str forecast_data :
  asked net (after_forecast properties forecast_url grid_id grid_x grid_y
               lat_str lon_str forecast_data) = [].
Proof.
  unfold Nws.after_forecast, or_raise. now repeat case_match.
Qed.

Lemma asked_after_points net lat_str lon_str points_data :
  (length (asked net (after_points lat_str lon_str points_data)) <= 1)%nat.
Proof.
  unfold Nws.after_points, or_raise.
  repeat case_match; simpl; rewrite ?asked_after_forecast; simpl; lia.
Qed.

(** X21. A request that fails ends [get_forecast] with a message and
    without a further request. When it is the first, the message names the
    formatted coordinates; when it is the second, made to the URL the
    points data give under "forecast", the message names that URL and the
    grid. *)
Theorem get_forecast_request_fails
    (latitude longitude : spec_float) net :
  within (-90) 90 latitude -> within (-180) 180 longitude ->
  (net (JStr (points_url latitude longitude)) = None ->
   outcome net (get_forecast_tool latitude longitude)
   = inr ("Error: Unable to get forecast grid point for location ("
            +:+ format_f 4 latitude +:+ ", " +:+ format_f 4 longitude
            +:+ "). The location might be outside the US or the API might be down.")
   /\ asked net (get_forecast_tool latitude longitude)
      = [JStr (points_url latitude longitude)])
  /\ (forall (pd props : gmap string json) (url : string),
        net (JStr (points_url latitude longitude)) = Some (JDict pd) ->
        pd !! "properties" = Some (JDict props) ->
        props !! "forecast" = Some (JStr url) -> url <> "" ->
        net (JStr url) = None ->
        outcome net (get_forecast_tool latitude longitude)
        = inr ("Error: Unable to fetch the detailed forecast from " +:+ url
                 +:+ " "
                 +:+ grid_text str_other
                       (default (JStr "N/A") (props !! "gridId"))
                       (default (JStr "N/A") (props !! "gridX"))
                       (default (JStr "N/A") (props !! "gridY"))
                 +:+ ".")
        /\ asked net (get_forecast_tool latitude longitude)
           = [JStr (points_url latitude longitude); JStr url]).
Proof.
  intros H1 H2. rewrite (get_forecast_tool_in_range _ _ H1 H2). split.
  - intros Hn. simpl. now rewrite Hn.
  - intros pd props url Hn Hp Hf Hu Hn2. simpl. rewrite Hn.
    unfold Nws.after_points. rewrite Hp. simpl. rewrite Hf. simpl.
    assert (T : truthy url = true).
    { unfold truthy. apply negb_true_iff. now apply String.eqb_neq. }
    rewrite T. simpl. now rewrite Hn2.
Qed.

(** X22. Whatever the coordinates and whatever the network answers,
    [get_forecast] makes at most two requests, and the first, if there is
    one, is for the points URL of the formatted coordinates. *)
Theorem get_forecast_at_most_two_requests (latitude longitude : spec_float) net :
  (length (asked net (get_forecast_tool latitude longitude)) <= 2)%nat
  /\ (asked net (get_forecast_tool latitude longitude) = []
      \/ exists more,
           asked net (get_forecast_tool latitude longitude)
           = JStr (points_url latitude longitude) :: more).
Proof.
  unfold Nws.get_forecast_tool.
  destruct (negb (int_le_float (-90) latitude && float_le_int latitude 90
                  && (int_le_float (-180) longitude
                      && float_le_int longitude 180))).
  - split; [simpl; lia | now left].
  - simpl. split.
    + pose proof (asked_after_points net (format_f 4 latitude)
                    (format_f 4 longitude)
                    (net (JStr (points_url latitude longitude)))) as H.
      unfold points_url in H. lia.
    + right. eexists. reflexivity.
Qed.

(** X23. Of the forecast periods only the first seven are looked at: the
    answer is the one the tool gives when the service sends just these
    seven, also when a later entry is malformed. *)
Theorem get_forecast_first_seven_periods
    (properties forecast_url grid_id grid_x grid_y : json)
    (lat_str lon_str : string) (fd fp : gmap string json) (ps : list json) :
  fd !! "properties" = Some (JDict fp) ->
  fp !! "periods" = Some (JList ps) ->
  after_forecast properties forecast_url grid_id grid_x grid_y lat_str lon_str
    (Some (JDict fd))
  = after_forecast properties forecast_url grid_id grid_x grid_y lat_str lon_str
      (Some (JDict (<["properties" :=
                        JDict (<["periods" := JList (take 7 ps)]> fp)]> fd))).
Proof.
  intros Hfd Hfp. unfold Nws.after_forecast.
  rewrite Hfd, lookup_insert_eq. simpl.
  rewrite Hfp, lookup_insert_eq. simpl.
  destruct ps as [|p ps]; [reflexivity|].
  change (take 7 (p :: ps)) with (p :: take 6 ps).
  assert (E : forall loc,
            forecast_text strip str_other loc (p :: take 6 ps)
            = forecast_text strip str_other loc (p :: ps)).
  { intros loc. unfold forecast_text.
    change (p :: take 6 ps) with (take 7 (p :: ps)). now rewrite take_take. }
  unfold or_raise. repeat case_match; rewrite ?E; reflexivity.
Qed.

(** X24. When the points data have a "properties" entry that is not an
    object (null, say), [get_forecast] does not answer with one of its
    error messages: the AttributeError of [properties.get] leaves the
    tool, after the one request. *)
Theorem get_forecast_raises_on_malformed_properties
    (latitude longitude : spec_float) net (pd : gmap string json) (v : json) :
  within (-90) 90 latitude -> within (-180) 180 longitude ->
  net (JStr (points_url latitude longitude)) = Some (JDict pd) ->
  pd !! "properties" = Some v -> (forall m, v <> JDict m) ->
  outcome net (get_forecast_tool latitude longitude) = inl AttributeError
  /\ asked net (get_forecast_tool latitude longitude)
     = [JStr (points_url latitude longitude)].
Proof.
  intros H1 H2 Hn Hp Hv. rewrite (get_forecast_tool_in_range _ _ H1 H2).
  simpl. rewrite Hn. unfold Nws.after_points. rewrite Hp.
  destruct v; try (now split). now destruct (Hv d).
Qed.

(** X25. When the points data carry no forecast URL, no second request is
    made. The answer says that the location is outside the coverage area
    when the status is 404 or the detail mentions "is outside the NWS
    operational area", and that the forecast URL could not be determined
    when there is neither a status nor a detail. *)
Theorem get_forecast_without_forecast_url
    (latitude longitude : spec_float) net (pd props : gmap string json) :
  within (-90) 90 latitude -> within (-180) 180 longitude ->
  net (JStr (points_url latitude longitude)) = Some (JDict pd) ->
  pd !! "properties" = Some (JDict props) ->
  props !! "forecast" = None ->
  asked net (get_forecast_tool latitude longitude)
  = [JStr (points_url latitude longitude)]
  /\ ((pd !! "status" = Some (JInt 404)
       \/ exists before after,
            pd !! "detail"
            = Some (JStr (before +:+ "is outside the NWS operational area"
                            +:+ after))) ->
      outcome net (get_forecast_tool latitude longitude)
      = inr ("Error: Location (" +:+ format_f 4 latitude +:+ ", "
               +:+ format_f 4 longitude
               +:+ ") is outside the NWS forecast coverage area (likely outside the US)."))
  /\ (pd !! "status" = None -> pd !! "detail" = None ->
      outcome net (get_forecast_tool latitude longitude)
      = inr ("Error: Could not determine the specific forecast URL for location ("
               +:+ format_f 4 latitude +:+ ", " +:+ format_f 4 longitude +:+ ").")).
Proof.
  intros H1 H2 Hn Hp Hf. rewrite (get_forecast_tool_in_range _ _ H1 H2).
  simpl. rewrite Hn. unfold Nws.after_points. rewrite Hp. simpl. rewrite Hf.
  simpl. split; [|split].
  - destruct (eq_int (default JNull (pd !! "status")) 404); [reflexivity|].
    unfold or_raise. now repeat case_match.
  - intros [Hs|(before & after & Hd)].
    + now rewrite Hs.
    + destruct (eq_int (default JNull (pd !! "status")) 404); [reflexivity|].
      rewrite Hd. simpl.
      now rewrite (proj2 (contains_iff "is outside the NWS operational area" _))
        by eauto.
  - intros Hs Hd. now rewrite Hs, Hd.
Qed.

End Tools.

(** *** The properties at concrete answers *)

Abbreviation alerts_of := (Nws.get_alerts ascii_strip ascii_isalpha ascii_upper str_sample).
Abbreviation forecast_of := (Nws.get_forecast_tool ascii_strip str_sample).

Lemma get_alerts_rejects_bad_code_witness :
  String.length "USA" <> 2%nat
  /\ alerts_of "USA"
     = Done "Error: Please provide a valid two-letter US state code (e.g., CA, NY)."
  /\ asked (alerts_net [flood]) (alerts_of "USA") = [].
Proof.
  assert (H : String.length "USA" <> 2%nat) by discriminate.
  split; [exact H|].
  exact (get_alerts_rejects_bad_code ascii_strip ascii_isalpha ascii_upper
           str_sample "USA" (alerts_net [flood]) (or_introl H)).
Defined.

Lemma get_alerts_without_alerts_witness :
  ascii_isalpha "ma" = true
  /\ outcome (alerts_net []) (alerts_of "ma")
     = inr "No active weather alerts found for MA."
  /\ outcome (fun _ => Some JNull) (alerts_of "ma")
     = inr "Error: Unable to fetch alerts for 'MA' from the NWS API. Check server logs for details."
  /\ outcome (fun _ => Some (JList [])) (alerts_of "ma")
     = inr "Error: Received unexpected data format when fetching alerts for MA.".
Proof.
  split; [reflexivity|]. split; [|split].
  - exact (proj1 (proj2 (get_alerts_without_alerts ascii_strip ascii_isalpha
                           ascii_upper str_sample "ma" (alerts_net [])
                           eq_refl eq_refl))
             _ eq_refl eq_refl).
  - exact (proj1 (get_alerts_without_alerts ascii_strip ascii_isalpha
                    ascii_upper str_sample "ma" (fun _ => Some JNull)
                    eq_refl eq_refl)
             (or_intror eq_refl)).
  - apply (proj2 (proj2 (get_alerts_without_alerts ascii_strip ascii_isalpha
                           ascii_upper str_sample "ma"
                           (fun _ => Some (JList [])) eq_refl eq_refl))
             (JList []) eq_refl); discriminate.
Defined.

Lemma get_alerts_one_bad_alert_hides_all_witness :
  unformattable broken
  /\ outcome (alerts_net [flood; broken]) (alerts_of "ma")
     = inr "Error: Could not format the alert data received for MA.".
Proof.
  assert (H : unformattable broken).
  { right. eexists _, _. split; [reflexivity|]. split; reflexivity. }
  split; [exact H|].
  apply (get_alerts_one_bad_alert_hides_all ascii_strip ascii_isalpha
           ascii_upper str_sample "ma" (alerts_net [flood; broken])
           _ [flood; broken] broken eq_refl eq_refl eq_refl eq_refl);
    [simpl; tauto | exact H].
Defined.

Lemma format_alert_instruction_witness :
  flood_properties !! "instruction" = Some JNull
  /\ Nws.format_alert ascii_strip str_sample flood
     = inr (alert_text "Flood Warning" "Unknown" "Unknown" "Unknown" "Unknown"
              "N/A" "River rising." "No specific instructions provided"
              "N/A" "N/A").
Proof.
  assert (H : flood_properties !! "instruction" = Some JNull) by reflexivity.
  split; [exact H|].
  exact (proj1 (format_alert_instruction ascii_strip str_sample
                  flood_feature flood_properties " River rising. "
                  eq_refl eq_refl eq_refl)
           (or_intror (or_introl H))).
Defined.

Lemma get_forecast_request_fails_witness :
  within (-90) 90 f_42_36 /\ within (-180) 180 f_m71_06
  /\ outcome (fun _ => None) (forecast_of f_42_36 f_m71_06)
     = inr "Error: Unable to get forecast grid point for location (42.3600, -71.0600). The location might be outside the US or the API might be down."
  /\ asked (fun _ => None) (forecast_of f_42_36 f_m71_06)
     = [JStr "https://api.weather.gov/points/42.3600,-71.0600"].
Proof.
  assert (Hlat : within (-90) 90 f_42_36) by (now apply in_range_within).
  assert (Hlon : within (-180) 180 f_m71_06) by (now apply in_range_within).
  split; [exact Hlat|]. split; [exact Hlon|].
  exact (proj1 (get_forecast_request_fails ascii_strip str_sample
                  f_42_36 f_m71_06 (fun _ => None) Hlat Hlon) eq_refl).
Defined.

Lemma get_forecast_first_seven_periods_witness :
  nth 7 nine_periods JNull = JNull
  /\ Nws.after_forecast ascii_strip str_sample (JDict ∅)
       (JStr forecast_url_sample) (JStr "BOX") (JInt 71) (JInt 90)
       "42.3600" "-71.0600" (Some (JDict forecast_data_sample))
     = Nws.after_forecast ascii_strip str_sample (JDict ∅)
         (JStr forecast_url_sample) (JStr "BOX") (JInt 71) (JInt 90)
         "42.3600" "-71.0600"
         (Some (JDict (<["properties" :=
                          JDict (<["periods" := JList (take 7 nine_periods)]>
                                   periods_properties)]> forecast_data_sample))).
Proof.
  split; [reflexivity|].
  exact (get_forecast_first_seven_periods ascii_strip str_sample (JDict ∅)
           (JStr forecast_url_sample) (JStr "BOX") (JInt 71) (JInt 90)
           "42.3600" "-71.0600" forecast_data_sample periods_properties
           nine_periods eq_refl eq_refl).
Defined.

Lemma get_forecast_raises_on_malformed_properties_witness :
  within (-90) 90 f_42_36 /\ within (-180) 180 f_m71_06
  /\ outcome (fun _ => Some (JDict null_properties))
       (forecast_of f_42_36 f_m71_06)
     = inl AttributeError.
Proof.
  assert (Hlat : within (-90) 90 f_42_36) by (now apply in_range_within).
  assert (Hlon : within (-180) 180 f_m71_06) by (now apply in_range_within).
  split; [exact Hlat|]. split; [exact Hlon|].
  apply (get_forecast_raises_on_malformed_properties ascii_strip str_sample
           f_42_36 f_m71_06 (fun _ => Some (JDict null_properties))
           null_properties JNull Hlat Hlon eq_refl eq_refl).
  discriminate.
Defined.

Lemma get_forecast_without_forecast_url_witness :
  within (-90) 90 f_42_36 /\ within (-180) 180 f_m71_06
  /\ outcome (fun _ => Some (JDict not_covered)) (forecast_of f_42_36 f_m71_06)
     = inr "Error: Location (42.3600, -71.0600) is outside the NWS forecast coverage area (likely outside the US)."
  /\ asked (fun _ => Some (JDict not_covered)) (forecast_of f_42_36 f_m71_06)
     = [JStr "https://api.weather.gov/points/42.3600,-71.0600"].
Proof.
  assert (Hlat : within (-90) 90 f_42_36) by (now apply in_range_within).
  assert (Hlon : within (-180) 180 f_m71_06) by (now apply in_range_within).
  split; [exact Hlat|]. split; [exact Hlon|].
  destruct (get_forecast_without_forecast_url ascii_strip str_sample
              f_42_36 f_m71_06 (fun _ => Some (JDict not_covered))
              not_covered ∅ Hlat Hlon eq_refl eq_refl eq_refl)
    as (H1 & H2 & _).
  split; [|exact H1].
  apply H2. now left.
Defined.

(** *** The formatted coordinates, read back *)

Lemma digit_value_digit (d : Z) : 0 <= d < 10 -> digit_value (digit d) = d.
Proof.
  intros H.
  assert (C : d = 0 \/ d = 1 \/ d = 2 \/ d = 3 \/ d = 4 \/ d = 5 \/ d = 6
              \/ d = 7 \/ d = 8 \/ d = 9) by lia.
  repeat (destruct C as [->|C]; [reflexivity|]). now subst.
Qed.

Lemma is_digit_not_point (c : ascii) :
  is_digit c = true -> Ascii.eqb c "."%char = false.
Proof.
  intros H. destruct (Ascii.eqb_spec c "."%char) as [->|_]; [discriminate|].
  reflexivity.
Qed.

(** Reading goes through a run of digits. *)
Lemma read_digits_digits (a rest : string) (acc : Z) (decimals : option nat) :
  all_digits a = true ->
  read_digits (a +:+ rest) acc decimals
  = read_digits rest (number a acc)
      ((fun k => (String.length a + k)%nat) <$> decimals).
Proof.
  revert acc decimals. induction a as [|c a IH]; intros acc decimals H.
  - rewrite append_nil_l. now destruct decimals.
  - simpl in H. apply andb_true_iff in H as [Hc Ha].
    rewrite append_cons. simpl.
    rewrite (is_digit_not_point c Hc), Hc, (IH _ _ Ha).
    destruct decimals; simpl; [|reflexivity].
    do 2 f_equal. lia.
Qed.

Lemma number_frac_digits (p : nat) (n : Z) (s : string) (acc : Z) :
  number (frac_digits p n s) acc
  = number s (acc * 10 ^ Z.of_nat p + n mod 10 ^ Z.of_nat p).
Proof.
  revert n s acc. induction p as [|p IH]; intros n s acc.
  - simpl. rewrite Z.mod_1_r. f_equal. lia.
  - cbn [frac_digits]. rewrite IH. cbn [number].
    rewrite digit_value_digit by (apply Z.mod_pos_bound; lia).
    f_equal. rewrite Nat2Z.inj_succ, Z.pow_succ_r by lia.
    rewrite (Z.rem_mul_r n 10 (10 ^ Z.of_nat p)) by lia. lia.
Qed.

Ltac eval_digit_value :=
  match goal with
  | |- context [digit_value ?c] =>
      let v := eval vm_compute in (digit_value c) in
      change (digit_value c) with v
  end.

Lemma number_of_uint_acc (d : Decimal.uint) (acc : positive) :
  number (NilEmpty.string_of_uint d) (Zpos acc) = Zpos (Pos.of_uint_acc d acc).
Proof.
  revert acc. induction d; intros acc; simpl; try reflexivity;
    eval_digit_value; rewrite <- IHd; f_equal; lia.
Qed.

Lemma number_of_uint (d : Decimal.uint) :
  number (NilEmpty.string_of_uint d) 0 = Z.of_N (Pos.of_uint d).
Proof.
  induction d; simpl; try reflexivity; eval_digit_value;
    try exact IHd; apply number_of_uint_acc.
Qed.

Lemma number_str_int (n : Z) : 0 <= n -> number (str_int n) 0 = n.
Proof.
  intros H. unfold str_int.
  assert (E : number (NilZero.string_of_uint (N.to_uint (Z.to_N n))) 0
              = Z.of_N (N.of_uint (N.to_uint (Z.to_N n)))).
  { unfold NilZero.string_of_uint, N.of_uint.
    destruct (N.to_uint (Z.to_N n)) eqn:Ed; try reflexivity;
      rewrite <- Ed at 2; rewrite <- number_of_uint; now rewrite Ed. }
  rewrite E, DecimalN.Unsigned.of_to. lia.
Qed.

(** What is written by [fixed] is read back as the same number of
    units in the last place. *)
Lemma decimal_value_fixed (p : nat) (s : bool) (n : Z) :
  0 <= n ->
  decimal_value (fixed (S p) s n)
  = Some (Qmake (if s then - n else n) (Z.to_pos (10 ^ Z.of_nat (S p)))).
Proof.
  intros Hn. unfold fixed.
  set (P := 10 ^ Z.of_nat (S p)).
  assert (HP : 0 < P) by (subst P; apply Z.pow_pos_nonneg; lia).
  set (ip := str_int (n / P)).
  set (fp := frac_digits (S p) (n mod P) "").
  assert (Dip : all_digits ip = true) by apply str_int_all_digits.
  assert (Dfp : all_digits fp = true)
    by (subst fp; now apply frac_digits_all_digits).
  assert (Nip : number ip 0 = n / P)
    by (subst ip; apply number_str_int, Z.div_pos; lia).
  assert (Nfp : forall acc, number fp acc = acc * P + n mod P).
  { intros acc. subst fp. rewrite number_frac_digits. cbn [number].
    fold P. now rewrite Z.mod_mod by lia. }
  assert (Lfp : String.length fp = S p)
    by (subst fp; rewrite frac_digits_length; simpl; lia).
  clearbody ip fp.
  assert (R : read_digits (ip +:+ "." +:+ fp) 0 None = Some (n, S p)).
  { rewrite (read_digits_digits ip _ 0 None Dip).
    change ("." +:+ fp) with (String "."%char fp).
    cbn [read_digits fmap option_fmap option_map].
    change (Ascii.eqb "." ".") with true. cbv iota.
    rewrite <- (append_empty_r fp).
    rewrite (read_digits_digits fp "" _ (Some O) Dfp).
    cbn [read_digits fmap option_fmap option_map default].
    rewrite Nfp, Nip, Lfp. unfold id. f_equal. f_equal; [|lia].
    pose proof (Z.div_mod n P ltac:(lia)). lia. }
  unfold decimal_value. destruct s.
  - change ("-" +:+ ip +:+ "." +:+ fp) with (String "-"%char (ip +:+ "." +:+ fp)).
    cbv iota beta. now rewrite R.
  - rewrite append_nil_l.
    destruct (ip +:+ "." +:+ fp) as [|c r] eqn:E; [now rewrite R|].
    assert (Hc : c <> "-"%char).
    { intros ->.
      destruct ip as [|c' ip']; [discriminate|].
      rewrite append_cons in E. injection E as -> _.
      simpl in Dip. discriminate. }
    destruct c as [[] [] [] [] [] [] [] []]; try (now rewrite R).
    now destruct Hc.
Qed.

Lemma scaled_nonneg (p : nat) (m : positive) (e : Z) : 0 <= scaled p m e.
Proof.
  unfold scaled. destruct (0 <=? e) eqn:He.
  - apply Z.leb_le in He. apply Z.mul_nonneg_nonneg; [|lia].
    apply Z.mul_nonneg_nonneg; [lia|]. now apply Z.pow_nonneg.
  - unfold round_half_even.
    assert (0 < 2 ^ (- e)) by (apply Z.pow_pos_nonneg; lia).
    assert (0 <= Z.pos m * 10 ^ Z.of_nat p / 2 ^ (- e)).
    { apply Z.div_pos; [|lia]. apply Z.mul_nonneg_nonneg; lia. }
    repeat case_match; lia.
Qed.

(** X26. The numeral [format_f] writes for a float, read back as a number,
    is within half a unit of its last decimal place of the float's value:
    the coordinates in the points URL differ from the given ones by at most
    0.00005. *)
Theorem format_f_nearest (p : nat) (x : spec_float) (v : Q) :
  float_value x = Some v ->
  exists q,
    decimal_value (format_f (S p) x) = Some q
    /\ (Qabs (q - v) <= Qmake 1 (Z.to_pos (2 * 10 ^ Z.of_nat (S p))))%Q.
Proof.
  set (P := 10 ^ Z.of_nat (S p)).
  assert (HP : 0 < P) by (subst P; apply Z.pow_pos_nonneg; lia).
  destruct x as [s|s| |s m e]; try discriminate; simpl; intros Hv.
  - injection Hv as <-. rewrite decimal_value_fixed by lia.
    eexists. split; [reflexivity|].
    apply Qabs_Qle_condition.
    destruct s; unfold Qle, Qopp, Qminus, Qplus; simpl; lia.
  - rewrite decimal_value_fixed by apply scaled_nonneg.
    eexists. split; [reflexivity|].
    apply Qabs_Qle_condition. fold P.
    assert (E1 : Z.pos (Z.to_pos P) = P) by (apply Z2Pos.id; lia).
    assert (E2 : Z.pos (Z.to_pos (2 * P)) = 2 * P) by (apply Z2Pos.id; lia).
    unfold scaled. fold P.
    destruct e as [|e|e]; simpl in Hv; injection Hv as <-.
    + simpl (0 <=? 0). cbv iota.
      destruct s; unfold Qle, Qopp, Qminus, Qplus, inject_Z; simpl;
        rewrite ?Pos2Z.inj_mul, ?E1, ?E2; nia.
    + assert (L : (0 <=? Z.pos e) = true) by now apply Z.leb_le.
      rewrite L.
      assert (0 < 2 ^ Z.pos e) by (apply Z.pow_pos_nonneg; lia).
      destruct s; unfold Qle, Qopp, Qminus, Qplus, inject_Z; simpl Qnum;
        simpl Qden; unfold cond_Zopp;
        rewrite ?Pos2Z.inj_mul, ?E1, ?E2; nia.
    + assert (L : (0 <=? Z.neg e) = false) by now apply Z.leb_gt.
      rewrite L. change (- Z.neg e) with (Z.pos e).
      assert (K : 0 < 2 ^ Z.pos e) by (apply Z.pow_pos_nonneg; lia).
      pose proof (round_half_even_nearest (Z.pos m * P) (2 ^ Z.pos e) K) as B.
      set (n := round_half_even (Z.pos m * P) (2 ^ Z.pos e)) in *.
      assert (E3 : Z.pos (2 ^ e) = 2 ^ Z.pos e) by apply Pos2Z.inj_pow.
      destruct s; unfold Qle, Qopp, Qminus, Qplus; simpl Qnum; simpl Qden;
        unfold cond_Zopp;
        rewrite ?Pos2Z.inj_mul, ?E1, ?E2, ?E3; nia.
Qed.

Lemma format_f_nearest_witness :
  float_value f_42_36 = Some (Qmake 5961640006731694 (2 ^ 47))
  /\ decimal_value (format_f 4 f_42_36) = Some (Qmake 423600 10000)
  /\ (Qabs (Qmake 423600 10000 - Qmake 5961640006731694 (2 ^ 47))
      <= Qmake 1 20000)%Q.
Proof.
  split; [reflexivity|]. split; [reflexivity|].
  destruct (format_f_nearest 3 f_42_36 _ eq_refl) as (q & Hq & Hb).
  injection Hq as <-. exact Hb.
Defined.

End NwsSpec.
